(** * DeltaWriter: the per-load write path of a tablet

    A shallow embedding of [be/src/olap/delta_writer.cpp].  The class keeps a
    handful of pointers (tablet, related tablet, row buffer, rowset writer,
    rowsets) and two flags; every member function either returns an
    [OLAPStatus] or, when it dereferences a null pointer, does not return at
    all.  The collaborators of the class (tablet manager, transaction manager,
    file system, id generator, rowset writer, meta manager, storage engine)
    live in other files: their answers are taken from an environment [Env],
    and every call made to them is appended to a history of events. *)

From Stdlib Require Import ZArith List String Bool Lia.
From Stdlib Require Import Permutation.
Import ListNotations.
Open Scope Z_scope.

(** ** Plain data *)

Definition TTabletId := Z.
Definition TSchemaHash := Z.
Definition TPartitionId := Z.
Definition TTransactionId := Z.
Definition RowsetId := Z.
Definition PUniqueId := (Z * Z)%type.
Definition DataDir := string.

(** The status codes this file names, and the ones that only pass through it. *)
Inductive OLAPStatus :=
| OLAP_SUCCESS
| OLAP_ERR_TABLE_NOT_FOUND
| OLAP_ERR_ROWSET_GENERATE_ID_FAILED
| OLAP_ERR_ROWSET_WRITER_INIT
| OLAP_ERR_ROWSET_SAVE_FAILED
| OLAP_ERR_OTHER (code : Z).

Definition is_success (st : OLAPStatus) : bool :=
  match st with OLAP_SUCCESS => true | _ => false end.

Inductive KeysType := DUP_KEYS | UNIQUE_KEYS | AGG_KEYS.

Inductive RowsetTypePB := ALPHA_ROWSET.
Inductive RowsetStatePB := PREPARED | COMMITTED | VISIBLE.

Record SlotDescriptor := { col_name : string }.
Record TupleDescriptor := { slots : list SlotDescriptor }.

Record TabletColumn := { name : string }.
Record TabletSchema := { columns : list TabletColumn }.
Definition num_columns (s : TabletSchema) : nat := List.length (columns s).

(** A cell value is kept opaque; a tuple holds one value per slot of its
    descriptor, a row one cell per entry of the column index mapping. *)
Definition Datum := Z.
Definition Tuple := list Datum.
Definition Row := list (option Datum).

Record Tablet := {
  tablet_id : TTabletId;
  schema_hash : TSchemaHash;
  tablet_schema : TabletSchema;
  keys_type : KeysType;
  get_schema_change_request : option (TTabletId * TSchemaHash);
  construct_pending_data_dir_path : string;
  tablet_path : string;
  data_dir : DataDir;
  full_name : string
}.

Record WriteRequest := {
  req_tablet_id : TTabletId;
  req_schema_hash : TSchemaHash;
  req_partition_id : TPartitionId;
  req_txn_id : TTransactionId;
  req_load_id : PUniqueId;
  req_need_gen_rollup : bool;
  req_tuple_desc : TupleDescriptor
}.

Record PTabletInfo := { info_tablet_id : TTabletId; info_schema_hash : TSchemaHash }.

Record TxnKey := {
  key_partition_id : TPartitionId;
  key_txn_id : TTransactionId;
  key_tablet_id : TTabletId;
  key_schema_hash : TSchemaHash
}.

Record RowsetWriterContext := {
  ctx_rowset_id : RowsetId;
  ctx_tablet_id : TTabletId;
  ctx_partition_id : TPartitionId;
  ctx_tablet_schema_hash : TSchemaHash;
  ctx_rowset_type : RowsetTypePB;
  ctx_rowset_path_prefix : string;
  ctx_tablet_schema : TabletSchema;
  ctx_rowset_state : RowsetStatePB;
  ctx_txn_id : TTransactionId;
  ctx_load_id : PUniqueId
}.

(** ** The objects the writer owns

    Neither [MemTable] nor [AlphaRowsetWriter] is defined in this file: the
    records below keep what [DeltaWriter] hands to their constructors and the
    rows they hold.  A [MemTable] is given the address of the writer's
    [_col_ids]; the vector is only written before the first buffer exists, so
    the buffer keeps its contents. *)

Record MemTable := {
  mt_schema : option TabletSchema;
  mt_tablet_schema : option TabletSchema;
  mt_col_ids : list nat;
  mt_tuple_desc : TupleDescriptor;
  mt_keys_type : KeysType;
  mt_rows : list Row
}.

Definition new_MemTable (schema tschema : option TabletSchema) (col_ids : list nat)
    (desc : TupleDescriptor) (kt : KeysType) : MemTable :=
  {| mt_schema := schema; mt_tablet_schema := tschema; mt_col_ids := col_ids;
     mt_tuple_desc := desc; mt_keys_type := kt; mt_rows := [] |}.

Record RowsetWriter := {
  rw_context : option RowsetWriterContext;
  rw_rows : list Row
}.

Definition new_AlphaRowsetWriter : RowsetWriter :=
  {| rw_context := None; rw_rows := [] |}.

Record Rowset := {
  rowset_id : RowsetId;
  rowset_meta : option RowsetWriterContext;
  rowset_rows : list Row
}.

(** ** Events: the calls the writer makes on its collaborators *)

Inductive Event :=
| EvInit  (* init() entered: a marker, not a call *)
| EvGetTablet (id : TTabletId) (hash : TSchemaHash)
| EvPushLock (id : TTabletId) (hash : TSchemaHash)
| EvPushUnlock (id : TTabletId) (hash : TSchemaHash)
| EvPrepareTxn (k : TxnKey) (load : PUniqueId) (st : OLAPStatus)
| EvHeaderRdLock (id : TTabletId)
| EvHeaderRelease (id : TTabletId)
| EvCheckDir (path : string) (existed : bool)
| EvCreateDirs (path : string) (st : OLAPStatus)
| EvGetNextId (dir : DataDir) (st : OLAPStatus) (id : RowsetId)
| EvRowsetWriterInit (ctx : RowsetWriterContext) (st : OLAPStatus)
| EvFlush (rows : list Row) (st : OLAPStatus)
| EvMemTableClose (rows : list Row) (st : OLAPStatus)
| EvBuild (r : option Rowset)
| EvSaveMeta (dir : DataDir) (id : RowsetId) (st : OLAPStatus)
| EvSchemaVersionConvert (old_id new_id : TTabletId)
| EvDeleteTxn (k : TxnKey)
| EvAddUnusedRowset (r : option Rowset)
| EvSegmentGroupRelease (g : Z).

Definition History := list Event.

(** ** The environment

    Each answer may depend on everything that happened before the call.
    [write_buffer_size] is [config::write_buffer_size]; [BE_TEST] says whether
    the file is compiled for the unit tests. *)
Record Env := {
  env_get_tablet : History -> TTabletId -> TSchemaHash -> option Tablet;
  env_prepare_txn : History -> TxnKey -> PUniqueId -> OLAPStatus;
  env_check_dir_existed : History -> string -> bool;
  env_create_dirs : History -> string -> OLAPStatus;
  env_get_next_id : History -> DataDir -> OLAPStatus * RowsetId;
  env_rowset_writer_init : History -> RowsetWriterContext -> OLAPStatus;
  env_merge : KeysType -> list Row -> Row -> list Row;
  env_memory_usage : MemTable -> Z;
  env_flush : History -> MemTable -> OLAPStatus;
  env_close : History -> MemTable -> OLAPStatus;
  env_build_ok : History -> RowsetWriter -> bool;
  env_save : History -> DataDir -> RowsetId -> OLAPStatus;
  write_buffer_size : Z;
  BE_TEST : bool
}.

(** ** The writer *)

Record DeltaWriter := {
  _is_init : bool;
  _req : WriteRequest;
  _tablet : option Tablet;
  _cur_rowset : option Rowset;
  _related_rowset : option Rowset;
  _related_tablet : option Tablet;
  _rowset_writer : option RowsetWriter;
  _mem_table : option MemTable;
  _schema : option TabletSchema;
  _tablet_schema : option TabletSchema;
  _col_ids : list nat;
  _delta_written_success : bool;
  _segment_group_vec : list Z
}.

Definition set_is_init (b : bool) (w : DeltaWriter) : DeltaWriter :=
  {| _is_init := b; _req := _req w; _tablet := _tablet w;
     _cur_rowset := _cur_rowset w; _related_rowset := _related_rowset w;
     _related_tablet := _related_tablet w; _rowset_writer := _rowset_writer w;
     _mem_table := _mem_table w; _schema := _schema w;
     _tablet_schema := _tablet_schema w; _col_ids := _col_ids w;
     _delta_written_success := _delta_written_success w;
     _segment_group_vec := _segment_group_vec w |}.

Definition set_tablet (t : option Tablet) (w : DeltaWriter) : DeltaWriter :=
  {| _is_init := _is_init w; _req := _req w; _tablet := t;
     _cur_rowset := _cur_rowset w; _related_rowset := _related_rowset w;
     _related_tablet := _related_tablet w; _rowset_writer := _rowset_writer w;
     _mem_table := _mem_table w; _schema := _schema w;
     _tablet_schema := _tablet_schema w; _col_ids := _col_ids w;
     _delta_written_success := _delta_written_success w;
     _segment_group_vec := _segment_group_vec w |}.

Definition set_cur_rowset (r : option Rowset) (w : DeltaWriter) : DeltaWriter :=
  {| _is_init := _is_init w; _req := _req w; _tablet := _tablet w;
     _cur_rowset := r; _related_rowset := _related_rowset w;
     _related_tablet := _related_tablet w; _rowset_writer := _rowset_writer w;
     _mem_table := _mem_table w; _schema := _schema w;
     _tablet_schema := _tablet_schema w; _col_ids := _col_ids w;
     _delta_written_success := _delta_written_success w;
     _segment_group_vec := _segment_group_vec w |}.

Definition set_related_tablet (t : option Tablet) (w : DeltaWriter) : DeltaWriter :=
  {| _is_init := _is_init w; _req := _req w; _tablet := _tablet w;
     _cur_rowset := _cur_rowset w; _related_rowset := _related_rowset w;
     _related_tablet := t; _rowset_writer := _rowset_writer w;
     _mem_table := _mem_table w; _schema := _schema w;
     _tablet_schema := _tablet_schema w; _col_ids := _col_ids w;
     _delta_written_success := _delta_written_success w;
     _segment_group_vec := _segment_group_vec w |}.

Definition set_rowset_writer (r : option RowsetWriter) (w : DeltaWriter) : DeltaWriter :=
  {| _is_init := _is_init w; _req := _req w; _tablet := _tablet w;
     _cur_rowset := _cur_rowset w; _related_rowset := _related_rowset w;
     _related_tablet := _related_tablet w; _rowset_writer := r;
     _mem_table := _mem_table w; _schema := _schema w;
     _tablet_schema := _tablet_schema w; _col_ids := _col_ids w;
     _delta_written_success := _delta_written_success w;
     _segment_group_vec := _segment_group_vec w |}.

Definition set_mem_table (m : option MemTable) (w : DeltaWriter) : DeltaWriter :=
  {| _is_init := _is_init w; _req := _req w; _tablet := _tablet w;
     _cur_rowset := _cur_rowset w; _related_rowset := _related_rowset w;
     _related_tablet := _related_tablet w; _rowset_writer := _rowset_writer w;
     _mem_table := m; _schema := _schema w;
     _tablet_schema := _tablet_schema w; _col_ids := _col_ids w;
     _delta_written_success := _delta_written_success w;
     _segment_group_vec := _segment_group_vec w |}.

Definition set_schema (x : option TabletSchema) (w : DeltaWriter) : DeltaWriter :=
  {| _is_init := _is_init w; _req := _req w; _tablet := _tablet w;
     _cur_rowset := _cur_rowset w; _related_rowset := _related_rowset w;
     _related_tablet := _related_tablet w; _rowset_writer := _rowset_writer w;
     _mem_table := _mem_table w; _schema := x;
     _tablet_schema := _tablet_schema w; _col_ids := _col_ids w;
     _delta_written_success := _delta_written_success w;
     _segment_group_vec := _segment_group_vec w |}.

Definition set_tablet_schema (x : option TabletSchema) (w : DeltaWriter) : DeltaWriter :=
  {| _is_init := _is_init w; _req := _req w; _tablet := _tablet w;
     _cur_rowset := _cur_rowset w; _related_rowset := _related_rowset w;
     _related_tablet := _related_tablet w; _rowset_writer := _rowset_writer w;
     _mem_table := _mem_table w; _schema := _schema w;
     _tablet_schema := x; _col_ids := _col_ids w;
     _delta_written_success := _delta_written_success w;
     _segment_group_vec := _segment_group_vec w |}.

Definition set_col_ids (l : list nat) (w : DeltaWriter) : DeltaWriter :=
  {| _is_init := _is_init w; _req := _req w; _tablet := _tablet w;
     _cur_rowset := _cur_rowset w; _related_rowset := _related_rowset w;
     _related_tablet := _related_tablet w; _rowset_writer := _rowset_writer w;
     _mem_table := _mem_table w; _schema := _schema w;
     _tablet_schema := _tablet_schema w; _col_ids := l;
     _delta_written_success := _delta_written_success w;
     _segment_group_vec := _segment_group_vec w |}.

Definition set_delta_written_success (b : bool) (w : DeltaWriter) : DeltaWriter :=
  {| _is_init := _is_init w; _req := _req w; _tablet := _tablet w;
     _cur_rowset := _cur_rowset w; _related_rowset := _related_rowset w;
     _related_tablet := _related_tablet w; _rowset_writer := _rowset_writer w;
     _mem_table := _mem_table w; _schema := _schema w;
     _tablet_schema := _tablet_schema w; _col_ids := _col_ids w;
     _delta_written_success := b;
     _segment_group_vec := _segment_group_vec w |}.

(** ** Control flow: state, early return, null dereference

    A function body runs on the writer, the history and the caller's
    [tablet_vec].  It ends normally, by [return st;] from the middle of the
    body, or by dereferencing a null pointer. *)

Record St := {
  dw : DeltaWriter;
  hist : History;
  tablet_vec : list PTabletInfo
}.

Inductive Exit :=
| Return (st : OLAPStatus)
| Segfault.

Definition M (A : Type) : Type := St -> (A + Exit) * St.

Definition ret {A} (a : A) : M A := fun s => (inl a, s).

Definition bind {A B} (m : M A) (k : A -> M B) : M B :=
  fun s => match m s with
           | (inl a, s') => k a s'
           | (inr e, s') => (inr e, s')
           end.

Declare Scope dw_scope.
Delimit Scope dw_scope with dw.
Notation "x <- m ;; k" := (bind m (fun x => k))
  (at level 61, m at next level, right associativity) : dw_scope.
Notation "m ;;; k" := (bind m (fun _ => k))
  (at level 61, right associativity) : dw_scope.
Open Scope dw_scope.

Definition return_ {A} (st : OLAPStatus) : M A := fun s => (inr (Return st), s).
Definition segfault {A} : M A := fun s => (inr Segfault, s).

Definition RETURN_NOT_OK (st : OLAPStatus) : M unit :=
  if is_success st then ret tt else return_ st.

(** [p->...] on a pointer that may be null. *)
Definition deref {A} (p : option A) : M A :=
  match p with Some a => ret a | None => segfault end.

Definition field {A} (f : DeltaWriter -> A) : M A := fun s => (inl (f (dw s)), s).

Definition modify (f : DeltaWriter -> DeltaWriter) : M unit :=
  fun s => (inl tt, {| dw := f (dw s); hist := hist s; tablet_vec := tablet_vec s |}).

Definition emit (e : Event) : M unit :=
  fun s => (inl tt, {| dw := dw s; hist := hist s ++ [e]; tablet_vec := tablet_vec s |}).

Definition ask {A} (f : History -> A) : M A := fun s => (inl (f (hist s)), s).

Definition Add (i : PTabletInfo) : M unit :=
  fun s => (inl tt, {| dw := dw s; hist := hist s; tablet_vec := tablet_vec s ++ [i] |}).

(** A [MutexLock] local: released when its block is left, also by a return. *)
Definition MutexLock {A} (id : TTabletId) (hash : TSchemaHash) (body : M A) : M A :=
  fun s => match (emit (EvPushLock id hash) ;;; body) s with
           | (r, s') => (r, snd (emit (EvPushUnlock id hash) s'))
           end.

(** A call of a member function from another one: its [return] ends the
    callee, not the caller. *)
Definition call (f : M OLAPStatus) : M OLAPStatus :=
  fun s => match f s with
           | (inl st, s') => (inl st, s')
           | (inr (Return st), s') => (inl st, s')
           | (inr Segfault, s') => (inr Segfault, s')
           end.

(** What a caller of the writer sees. *)
Inductive Outcome :=
| Returned (st : OLAPStatus)
| Crashed.

Definition outcome_of (r : OLAPStatus + Exit) : Outcome :=
  match r with
  | inl st | inr (Return st) => Returned st
  | inr Segfault => Crashed
  end.

Definition run (f : M OLAPStatus) (s : St) : Outcome * St :=
  let (r, s') := f s in (outcome_of r, s').

(** ** Row buffer and rowset writer *)

(** The column index mapping of [init]: for every schema column in turn, the
    positions of the slots that carry its name. *)
Fixpoint matching_slots (column_name : string) (sl : list SlotDescriptor) (i : nat)
    : list nat :=
  match sl with
  | [] => []
  | slot :: rest =>
      if String.eqb (col_name slot) column_name
      then i :: matching_slots column_name rest (S i)
      else matching_slots column_name rest (S i)
  end.

Definition build_col_ids (schema : TabletSchema) (sl : list SlotDescriptor) : list nat :=
  flat_map (fun column => matching_slots (name column) sl 0%nat) (columns schema).

(** Modelled from the spec: [MemTable::insert] (olap/memtable.cpp is not among
    the sources).  The row's fields are mapped through the column index
    mapping into schema-column order: cell [i] of the record is the value of
    slot [col_ids[i]]. *)
Definition assemble_row (col_ids : list nat) (tuple : Tuple) : Row :=
  map (fun i => nth_error tuple i) col_ids.

(** Modelled from the spec: the key-model dispatch of the row buffer.  The
    duplicate model appends; the keyed models hand the record to the merge
    hook, which is not this file's concern. *)
Definition MemTable_insert (env : Env) (mt : MemTable) (tuple : Tuple) : MemTable :=
  let row := assemble_row (mt_col_ids mt) tuple in
  {| mt_schema := mt_schema mt; mt_tablet_schema := mt_tablet_schema mt;
     mt_col_ids := mt_col_ids mt; mt_tuple_desc := mt_tuple_desc mt;
     mt_keys_type := mt_keys_type mt;
     mt_rows := match mt_keys_type mt with
                | DUP_KEYS => mt_rows mt ++ [row]
                | kt => env_merge env kt (mt_rows mt) row
                end |}.

(** [size_t]: an unsigned number of 64 bits.  A signed value that meets a
    [size_t] in a comparison is converted to it first, which wraps a negative
    value around. *)
Definition to_size_t (z : Z) : Z := z mod 2 ^ 64.

(** [MemTable::memory_usage] returns a [size_t]. *)
Definition memory_usage (env : Env) (mt : MemTable) : Z :=
  to_size_t (env_memory_usage env mt).

(** [config::write_buffer_size] as line 155 compares it: the signed
    configuration value converted to [size_t]. *)
Definition threshold (env : Env) : Z := to_size_t (write_buffer_size env).

Definition add_rowset (rw : RowsetWriter) (rows : list Row) : RowsetWriter :=
  {| rw_context := rw_context rw; rw_rows := rw_rows rw ++ rows |}.

(** Modelled from the spec: [MemTable::flush] hands the buffer's rows to the
    rowset writer as one batch.  A flush that fails leaves the writer as it
    was. *)
Definition MemTable_flush (env : Env) (mt : MemTable) : M OLAPStatus :=
  p <- field _rowset_writer ;;
  rw <- deref p ;;
  st <- ask (fun h => env_flush env h mt) ;;
  emit (EvFlush (mt_rows mt) st) ;;;
  (if is_success st
   then modify (set_rowset_writer (Some (add_rowset rw (mt_rows mt))))
   else ret tt) ;;;
  ret st.

(** Modelled from the spec: [MemTable::close], the flush of the last buffer. *)
Definition MemTable_close (env : Env) (mt : MemTable) : M OLAPStatus :=
  p <- field _rowset_writer ;;
  rw <- deref p ;;
  st <- ask (fun h => env_close env h mt) ;;
  emit (EvMemTableClose (mt_rows mt) st) ;;;
  (if is_success st
   then modify (set_rowset_writer (Some (add_rowset rw (mt_rows mt))))
   else ret tt) ;;;
  ret st.

(** Modelled from the spec: [RowsetWriter::build] gives the rowset of the
    batches appended so far, or null when the writer was never initialised or
    the storage write fails. *)
Definition RowsetWriter_build (env : Env) (h : History) (rw : RowsetWriter)
    : option Rowset :=
  match rw_context rw with
  | Some ctx =>
      if env_build_ok env h rw
      then Some {| rowset_id := ctx_rowset_id ctx; rowset_meta := Some ctx;
                   rowset_rows := rw_rows rw |}
      else None
  | None => None
  end.

(** ** Calls on the singletons *)

Definition get_tablet (env : Env) (id : TTabletId) (hash : TSchemaHash)
    : M (option Tablet) :=
  t <- ask (fun h => env_get_tablet env h id hash) ;;
  emit (EvGetTablet id hash) ;;;
  ret t.

Definition prepare_txn (env : Env) (k : TxnKey) (load : PUniqueId) : M OLAPStatus :=
  st <- ask (fun h => env_prepare_txn env h k load) ;;
  emit (EvPrepareTxn k load st) ;;;
  ret st.

Definition delete_txn (k : TxnKey) : M unit := emit (EvDeleteTxn k).

Definition add_unused_rowset (r : option Rowset) : M unit := emit (EvAddUnusedRowset r).

Definition check_dir_existed (env : Env) (path : string) : M bool :=
  b <- ask (fun h => env_check_dir_existed env h path) ;;
  emit (EvCheckDir path b) ;;;
  ret b.

Definition create_dirs (env : Env) (path : string) : M OLAPStatus :=
  st <- ask (fun h => env_create_dirs env h path) ;;
  emit (EvCreateDirs path st) ;;;
  ret st.

Definition get_next_id (env : Env) (dir : DataDir) : M (OLAPStatus * RowsetId) :=
  r <- ask (fun h => env_get_next_id env h dir) ;;
  emit (EvGetNextId dir (fst r) (snd r)) ;;;
  ret r.

Definition RowsetMetaManager_save (env : Env) (dir : DataDir) (id : RowsetId)
    : M OLAPStatus :=
  st <- ask (fun h => env_save env h dir id) ;;
  emit (EvSaveMeta dir id st) ;;;
  ret st.

Definition req_key (req : WriteRequest) : TxnKey :=
  {| key_partition_id := req_partition_id req; key_txn_id := req_txn_id req;
     key_tablet_id := req_tablet_id req; key_schema_hash := req_schema_hash req |}.

Definition related_key (req : WriteRequest) (id : TTabletId) (hash : TSchemaHash)
    : TxnKey :=
  {| key_partition_id := req_partition_id req; key_txn_id := req_txn_id req;
     key_tablet_id := id; key_schema_hash := hash |}.

Definition tablet_info (t : Tablet) : PTabletInfo :=
  {| info_tablet_id := tablet_id t; info_schema_hash := schema_hash t |}.

(** ** Member functions *)

(** [DeltaWriter::DeltaWriter] and [DeltaWriter::open].  The constructor's
    initialiser list leaves [_is_init] to its declaration in the header, which
    starts it at false. *)
Definition new_DeltaWriter (req : WriteRequest) : DeltaWriter :=
  {| _is_init := false; _req := req; _tablet := None;
     _cur_rowset := None; _related_rowset := None; _related_tablet := None;
     _rowset_writer := None; _mem_table := None;
     _schema := None; _tablet_schema := None; _col_ids := [];
     _delta_written_success := false; _segment_group_vec := [] |}.

Definition open (req : WriteRequest) : OLAPStatus * DeltaWriter :=
  (OLAP_SUCCESS, new_DeltaWriter req).

(** [DeltaWriter::_garbage_collection] *)
Definition _garbage_collection : M unit :=
  req <- field _req ;;
  delete_txn (req_key req) ;;;
  cur <- field _cur_rowset ;;
  add_unused_rowset cur ;;;
  rt <- field _related_tablet ;;
  match rt with
  | Some related =>
      delete_txn (related_key req (tablet_id related) (schema_hash related)) ;;;
      rel <- field _related_rowset ;;
      add_unused_rowset rel
  | None => ret tt
  end.

Fixpoint release_all (gs : list Z) : M unit :=
  match gs with
  | [] => ret tt
  | g :: rest => emit (EvSegmentGroupRelease g) ;;; release_all rest
  end.

(** [DeltaWriter::~DeltaWriter] *)
Definition destroy : M unit :=
  ok <- field _delta_written_success ;;
  (if negb ok then _garbage_collection else ret tt) ;;;
  gs <- field _segment_group_vec ;;
  release_all gs ;;;
  modify (set_mem_table None) ;;;
  modify (set_schema None).

(** [DeltaWriter::init] *)
Definition init (env : Env) : M OLAPStatus :=
  emit EvInit ;;;
  req <- field _req ;;
  t <- get_tablet env (req_tablet_id req) (req_schema_hash req) ;;
  modify (set_tablet t) ;;;
  match t with
  | None => return_ OLAP_ERR_TABLE_NOT_FOUND
  | Some tablet =>
      MutexLock (tablet_id tablet) (schema_hash tablet)
        (st <- prepare_txn env (req_key req) (req_load_id req) ;;
         RETURN_NOT_OK st ;;;
         (if req_need_gen_rollup req then
            emit (EvHeaderRdLock (tablet_id tablet)) ;;;
            let is_schema_changing := get_schema_change_request tablet in
            emit (EvHeaderRelease (tablet_id tablet)) ;;;
            match is_schema_changing with
            | Some (new_tablet_id, new_schema_hash) =>
                rt <- get_tablet env new_tablet_id new_schema_hash ;;
                modify (set_related_tablet rt) ;;;
                _ <- prepare_txn env (related_key req new_tablet_id new_schema_hash)
                       (req_load_id req) ;;
                ret tt
            | None => ret tt
            end
          else ret tt) ;;;
         let dir_path := construct_pending_data_dir_path tablet in
         existed <- check_dir_existed env dir_path ;;
         if negb existed
         then st <- create_dirs env dir_path ;; RETURN_NOT_OK st
         else ret tt) ;;;
      r <- get_next_id env (data_dir tablet) ;;
      let (status, rowset_id) := (r : OLAPStatus * RowsetId) in
      if negb (is_success status) then return_ OLAP_ERR_ROWSET_GENERATE_ID_FAILED else
      let writer_context :=
        {| ctx_rowset_id := rowset_id;
           ctx_tablet_id := req_tablet_id req;
           ctx_partition_id := req_partition_id req;
           ctx_tablet_schema_hash := req_schema_hash req;
           ctx_rowset_type := ALPHA_ROWSET;
           ctx_rowset_path_prefix := tablet_path tablet;
           ctx_tablet_schema := tablet_schema tablet;
           ctx_rowset_state := PREPARED;
           ctx_txn_id := req_txn_id req;
           ctx_load_id := req_load_id req |} in
      modify (set_rowset_writer (Some new_AlphaRowsetWriter)) ;;;
      status <- ask (fun h => env_rowset_writer_init env h writer_context) ;;
      emit (EvRowsetWriterInit writer_context status) ;;;
      if negb (is_success status) then return_ OLAP_ERR_ROWSET_WRITER_INIT else
      modify (set_rowset_writer
                (Some {| rw_context := Some writer_context; rw_rows := [] |})) ;;;
      old_ids <- field _col_ids ;;
      let col_ids :=
        (old_ids ++ build_col_ids (tablet_schema tablet) (slots (req_tuple_desc req)))%list in
      modify (set_col_ids col_ids) ;;;
      modify (set_tablet_schema (Some (tablet_schema tablet))) ;;;
      modify (set_schema (Some (tablet_schema tablet))) ;;;
      modify (set_mem_table
                (Some (new_MemTable (Some (tablet_schema tablet))
                         (Some (tablet_schema tablet))
                         col_ids (req_tuple_desc req) (keys_type tablet)))) ;;;
      modify (set_is_init true) ;;;
      ret OLAP_SUCCESS
  end.

(** The [if (!_is_init)] prologue shared by [write] and [close]. *)
Definition ensure_init (env : Env) : M unit :=
  is_init <- field _is_init ;;
  if negb is_init
  then st <- call (init env) ;;
       if negb (is_success st) then return_ st else ret tt
  else ret tt.

(** [new MemTable(_schema, _tablet_schema, &_col_ids, _req.tuple_desc,
    _tablet->keys_type())] *)
Definition fresh_mem_table : M MemTable :=
  schema <- field _schema ;;
  tschema <- field _tablet_schema ;;
  ids <- field _col_ids ;;
  req <- field _req ;;
  tp <- field _tablet ;;
  tablet <- deref tp ;;
  ret (new_MemTable schema tschema ids (req_tuple_desc req) (keys_type tablet)).

(** [DeltaWriter::write]: the prologue, then the insert and the threshold
    test. *)
Definition write_body (env : Env) (tuple : Tuple) : M OLAPStatus :=
  mp <- field _mem_table ;;
  mt <- deref mp ;;
  let mt' := MemTable_insert env mt tuple in
  modify (set_mem_table (Some mt')) ;;;
  (if threshold env <=? memory_usage env mt'
   then st <- MemTable_flush env mt' ;;
        RETURN_NOT_OK st ;;;
        modify (set_mem_table None) ;;;
        fresh <- fresh_mem_table ;;
        modify (set_mem_table (Some fresh))
   else ret tt) ;;;
  ret OLAP_SUCCESS.

Definition write (env : Env) (tuple : Tuple) : M OLAPStatus :=
  ensure_init env ;;; write_body env tuple.

(** [DeltaWriter::close]: the prologue, then everything from
    [_mem_table->close] on. *)
Definition close_body (env : Env) : M OLAPStatus :=
  mp <- field _mem_table ;;
  mt <- deref mp ;;
  st <- MemTable_close env mt ;;
  RETURN_NOT_OK st ;;;
  rwp <- field _rowset_writer ;;
  rw <- deref rwp ;;
  built <- ask (fun h => RowsetWriter_build env h rw) ;;
  emit (EvBuild built) ;;;
  modify (set_cur_rowset built) ;;;
  tp <- field _tablet ;;
  tablet <- deref tp ;;
  cur <- deref built ;;
  res <- RowsetMetaManager_save env (data_dir tablet) (rowset_id cur) ;;
  if negb (is_success res) then return_ OLAP_ERR_ROWSET_SAVE_FAILED else
  rtp <- field _related_tablet ;;
  match rtp with
  | Some related =>
      MutexLock (tablet_id related) (schema_hash related)
        (let dir_path := construct_pending_data_dir_path related in
         existed <- check_dir_existed env dir_path ;;
         if negb existed
         then st <- create_dirs env dir_path ;; RETURN_NOT_OK st
         else ret tt) ;;;
      (* the call of schema_version_convert is commented out: res still holds
         the status of the save above *)
      (if negb (is_success res) then return_ res else ret tt) ;;;
      relp <- field _related_rowset ;;
      rel <- deref relp ;;
      res <- RowsetMetaManager_save env (data_dir related) (rowset_id rel) ;;
      if negb (is_success res) then return_ OLAP_ERR_ROWSET_SAVE_FAILED else ret tt
  | None => ret tt
  end ;;;
  (if BE_TEST env then ret tt else
     Add (tablet_info tablet) ;;;
     match rtp with
     | Some related => Add (tablet_info related)
     | None => ret tt
     end) ;;;
  modify (set_delta_written_success true) ;;;
  ret OLAP_SUCCESS.

Definition close (env : Env) : M OLAPStatus :=
  ensure_init env ;;; close_body env.

(** [DeltaWriter::cancel]; the [DCHECK] is compiled out of release builds. *)
Definition cancel : M OLAPStatus := ret OLAP_SUCCESS.

(** ** Runs of a writer *)

(** A writer just opened for [req], with the caller's collection [vec] and
    the events [h] that happened before. *)
Definition opened (req : WriteRequest) (h : History) (vec : list PTabletInfo) : St :=
  {| dw := snd (open req); hist := h; tablet_vec := vec |}.

Inductive Op :=
| OpWrite (tuple : Tuple)
| OpClose.

Definition step (env : Env) (op : Op) : M OLAPStatus :=
  match op with
  | OpWrite tuple => write env tuple
  | OpClose => close env
  end.

(** The caller's calls one after the other; a crash ends the run. *)
Fixpoint run_ops (env : Env) (ops : list Op) (s : St) : list Outcome * St :=
  match ops with
  | [] => ([], s)
  | op :: rest =>
      match run (step env op) s with
      | (Crashed, s') => ([Crashed], s')
      | (o, s') => let (os, s'') := run_ops env rest s' in (o :: os, s'')
      end
  end.

(** The state the destructor leaves. *)
Definition teardown (s : St) : St := snd (destroy s).

(** The events added between two histories. *)
Definition events_since (before after : History) : History :=
  skipn (List.length before) after.

Definition is_init_marker (e : Event) : bool :=
  match e with EvInit => true | _ => false end.

Definition count_init (h : History) : nat :=
  List.length (filter is_init_marker h).

(** The calls [init] makes. *)
Definition init_event (e : Event) : bool :=
  match e with
  | EvGetTablet _ _ | EvPushLock _ _ | EvPushUnlock _ _ | EvPrepareTxn _ _ _
  | EvHeaderRdLock _ | EvHeaderRelease _ | EvCheckDir _ _ | EvCreateDirs _ _
  | EvGetNextId _ _ _ | EvRowsetWriterInit _ _ => true
  | _ => false
  end.

(** The calls [write] and [close] make once the writer is initialised. *)
Definition body_event (e : Event) : bool :=
  match e with
  | EvFlush _ _ | EvMemTableClose _ _ | EvBuild _ | EvSaveMeta _ _ _
  | EvPushLock _ _ | EvPushUnlock _ _ | EvCheckDir _ _ | EvCreateDirs _ _ => true
  | _ => false
  end.

Definition is_prepare (e : Event) : bool :=
  match e with EvPrepareTxn _ _ _ => true | _ => false end.

Definition is_delete (e : Event) : bool :=
  match e with EvDeleteTxn _ => true | _ => false end.

Definition is_flush (e : Event) : bool :=
  match e with EvFlush _ _ => true | _ => false end.

Definition is_convert (e : Event) : bool :=
  match e with EvSchemaVersionConvert _ _ => true | _ => false end.

Definition is_save (e : Event) : bool :=
  match e with EvSaveMeta _ _ _ => true | _ => false end.


(** Every collaborator answers with success, and the directory resolves the
    request to [t]. *)
Definition collaborators_succeed (env : Env) (req : WriteRequest) (t : Tablet) : Prop :=
  (forall h, env_get_tablet env h (req_tablet_id req) (req_schema_hash req) = Some t) /\
  (forall h k l, env_prepare_txn env h k l = OLAP_SUCCESS) /\
  (forall h p, env_create_dirs env h p = OLAP_SUCCESS) /\
  (forall h d, fst (env_get_next_id env h d) = OLAP_SUCCESS) /\
  (forall h c, env_rowset_writer_init env h c = OLAP_SUCCESS) /\
  (forall h m, env_flush env h m = OLAP_SUCCESS) /\
  (forall h m, env_close env h m = OLAP_SUCCESS) /\
  (forall h rw, env_build_ok env h rw = true) /\
  (forall h d i, env_save env h d i = OLAP_SUCCESS).

Definition key_eqb (a b : TxnKey) : bool :=
  (key_partition_id a =? key_partition_id b) && (key_txn_id a =? key_txn_id b)
  && (key_tablet_id a =? key_tablet_id b) && (key_schema_hash a =? key_schema_hash b).

(** [k] was prepared with success somewhere in [h]. *)
Definition prepared (h : History) (k : TxnKey) : bool :=
  existsb (fun e => match e with
                    | EvPrepareTxn k' _ st => key_eqb k k' && is_success st
                    | _ => false
                    end) h.

(** [delete_txn] was called for [k] somewhere in [h]. *)
Definition deleted (h : History) (k : TxnKey) : bool :=
  existsb (fun e => match e with
                    | EvDeleteTxn k' => key_eqb k k'
                    | _ => false
                    end) h.

(** The value of the field called [column_name] in a tuple laid out by [sl]:
    the reading of a row back by name. *)
Fixpoint field_value (sl : list SlotDescriptor) (tuple : Tuple) (column_name : string)
    : option Datum :=
  match sl, tuple with
  | slot :: sl', v :: tuple' =>
      if String.eqb (col_name slot) column_name then Some v
      else field_value sl' tuple' column_name
  | _, _ => None
  end.

(** ** Environments and requests used as examples *)

Module Scenario.
Open Scope string_scope.

Definition schema_abc : TabletSchema :=
  {| columns := [ {| name := "a" |}; {| name := "b" |}; {| name := "c" |} ] |}.

Definition desc_cab : TupleDescriptor :=
  {| slots := [ {| col_name := "c" |}; {| col_name := "a" |}; {| col_name := "b" |} ] |}.

(** Tablet 10 without, and with, a schema change towards tablet 20. *)
Definition tablet10 (change : option (TTabletId * TSchemaHash)) : Tablet :=
  {| tablet_id := 10; schema_hash := 77; tablet_schema := schema_abc;
     keys_type := DUP_KEYS; get_schema_change_request := change;
     construct_pending_data_dir_path := "/data/10/pending";
     tablet_path := "/data/10"; data_dir := "/data"; full_name := "10.77" |}.

Definition tablet20 : Tablet :=
  {| tablet_id := 20; schema_hash := 88; tablet_schema := schema_abc;
     keys_type := DUP_KEYS; get_schema_change_request := None;
     construct_pending_data_dir_path := "/data/20/pending";
     tablet_path := "/data/20"; data_dir := "/data"; full_name := "20.88" |}.

Definition request (rollup : bool) : WriteRequest :=
  {| req_tablet_id := 10; req_schema_hash := 77; req_partition_id := 1;
     req_txn_id := 2; req_load_id := (3, 4); req_need_gen_rollup := rollup;
     req_tuple_desc := desc_cab |}.

(** Collaborators that do not look at the history: a tablet directory, the
    answers of prepare, of the id generator and of flush; everything else
    succeeds.  A buffer weighs 8 bytes per row and is flushed at 16. *)
Definition env_of (directory : TTabletId -> TSchemaHash -> option Tablet)
    (prepare : TxnKey -> OLAPStatus) (next_id flush : OLAPStatus) : Env :=
  {| env_get_tablet := fun _ => directory;
     env_prepare_txn := fun _ k _ => prepare k;
     env_check_dir_existed := fun _ _ => false;
     env_create_dirs := fun _ _ => OLAP_SUCCESS;
     env_get_next_id := fun _ _ => (next_id, 5);
     env_rowset_writer_init := fun _ _ => OLAP_SUCCESS;
     env_merge := fun _ rows row => (rows ++ [row])%list;
     env_memory_usage := fun mt => 8 * Z.of_nat (List.length (mt_rows mt));
     env_flush := fun _ _ => flush;
     env_close := fun _ _ => OLAP_SUCCESS;
     env_build_ok := fun _ _ => true;
     env_save := fun _ _ _ => OLAP_SUCCESS;
     write_buffer_size := 16;
     BE_TEST := false |}.

Definition only10 : TTabletId -> TSchemaHash -> option Tablet :=
  fun id hash => if (id =? 10)%Z && (hash =? 77)%Z then Some (tablet10 None) else None.

(** Tablet 10 is being migrated to tablet 20, which the directory knows. *)
Definition both : TTabletId -> TSchemaHash -> option Tablet :=
  fun id hash =>
    if (id =? 10)%Z && (hash =? 77)%Z then Some (tablet10 (Some (20, 88)))
    else if (id =? 20)%Z && (hash =? 88)%Z then Some tablet20
    else None.

(** Tablet 10 records a migration to tablet 20, which the directory does
    not know. *)
Definition dangling : TTabletId -> TSchemaHash -> option Tablet :=
  fun id hash =>
    if (id =? 10)%Z && (hash =? 77)%Z then Some (tablet10 (Some (20, 88))) else None.

Definition nothing : TTabletId -> TSchemaHash -> option Tablet := fun _ _ => None.

Definition always (st : OLAPStatus) : TxnKey -> OLAPStatus := fun _ => st.

Definition refuse20 : TxnKey -> OLAPStatus :=
  fun k => if (key_tablet_id k =? 20)%Z then OLAP_ERR_OTHER 1 else OLAP_SUCCESS.

Definition env_ok := env_of only10 (always OLAP_SUCCESS) OLAP_SUCCESS OLAP_SUCCESS.
Definition env_missing := env_of nothing (always OLAP_SUCCESS) OLAP_SUCCESS OLAP_SUCCESS.
Definition env_dual := env_of both (always OLAP_SUCCESS) OLAP_SUCCESS OLAP_SUCCESS.
Definition env_dangling := env_of dangling (always OLAP_SUCCESS) OLAP_SUCCESS OLAP_SUCCESS.
Definition env_refuse20 := env_of both refuse20 OLAP_SUCCESS OLAP_SUCCESS.
Definition env_no_id := env_of only10 (always OLAP_SUCCESS) (OLAP_ERR_OTHER 3) OLAP_SUCCESS.

Definition key10 : TxnKey :=
  {| key_partition_id := 1; key_txn_id := 2; key_tablet_id := 10; key_schema_hash := 77 |}.
Definition key20 : TxnKey :=
  {| key_partition_id := 1; key_txn_id := 2; key_tablet_id := 20; key_schema_hash := 88 |}.




Definition row123 : Row := [Some 2; Some 3; Some 1].

(** The writer after one [write] of the tuple [1; 2; 3]. *)
Definition after_one_write (env : Env) : St :=
  snd (run (write env [1; 2; 3]) (opened (request false) [] [])).
End Scenario.

(** ** Reasoning about a body: the postcondition of a run *)

Definition wp {A} (m : M A) (s : St) (Q : A + Exit -> St -> Prop) : Prop :=
  Q (fst (m s)) (snd (m s)).
Arguments wp : simpl never.

(** What [init] leaves untouched. *)
Definition init_frame (w w' : DeltaWriter) : Prop :=
  _req w' = _req w /\
  _delta_written_success w' = _delta_written_success w /\
  _cur_rowset w' = _cur_rowset w /\
  _related_rowset w' = _related_rowset w /\
  _segment_group_vec w' = _segment_group_vec w.

(** A writer on which [write] and [close] find every pointer they follow. *)
Definition ready (w : DeltaWriter) : Prop :=
  _is_init w = true /\
  exists t mt rw,
    _tablet w = Some t /\ _mem_table w = Some mt /\ mt_rows mt = [] /\
    _rowset_writer w = Some rw /\ rw_rows rw = [] /\ rw_context rw <> None.

(** What one run of [init] from [s] gives. *)
Definition init_post (s : St) (r : OLAPStatus + Exit) (s' : St) : Prop :=
  (exists evs, hist s' = hist s ++ EvInit :: evs /\ forallb init_event evs = true) /\
  tablet_vec s' = tablet_vec s /\
  init_frame (dw s) (dw s') /\
  match r with
  | inl st => st = OLAP_SUCCESS /\ ready (dw s')
  | inr (Return st) => is_success st = false /\ _is_init (dw s') = _is_init (dw s)
  | inr Segfault => False
  end.

(** ** Whole calls and whole runs *)

(** What [write] and [close] do after the prologue. *)
Definition step_body (env : Env) (op : Op) : M OLAPStatus :=
  match op with
  | OpWrite tuple => write_body env tuple
  | OpClose => close_body env
  end.

(** A writer on which an initialised [write] or [close] finds the pointers it
    follows first: the tablet, the row buffer, and a rowset writer that was
    initialised. *)
Definition usable (w : DeltaWriter) : Prop :=
  _is_init w = true ->
  exists t mt rw,
    _tablet w = Some t /\ _mem_table w = Some mt /\
    _rowset_writer w = Some rw /\ rw_context rw <> None.

Definition same_tablet (a b : TTabletId * TSchemaHash) : bool :=
  (fst a =? fst b) && (snd a =? snd b).

(** The push lock along a stretch of history: the tablet whose lock is held
    after [evs], starting with [held]; [None] when an event is out of place.
    In place means: a lock is taken when none is held and released by the
    tablet that took it; [prepare_txn], the header lock and the directory
    calls happen under the push lock; entering [init], the id generator, the
    rowset writer, flush, build, save and the unwind happen outside it; a
    tablet lookup may happen on either side. *)
Fixpoint lock_after (held : option (TTabletId * TSchemaHash)) (evs : list Event)
    : option (option (TTabletId * TSchemaHash)) :=
  match evs with
  | [] => Some held
  | e :: rest =>
      match e, held with
      | EvPushLock id hash, None => lock_after (Some (id, hash)) rest
      | EvPushUnlock id hash, Some k =>
          if same_tablet k (id, hash) then lock_after None rest else None
      | EvGetTablet _ _, _ => lock_after held rest
      | EvPrepareTxn _ _ _, Some _ | EvCheckDir _ _, Some _ | EvCreateDirs _ _, Some _
      | EvHeaderRdLock _, Some _ | EvHeaderRelease _, Some _ => lock_after held rest
      | EvInit, None | EvGetNextId _ _ _, None | EvRowsetWriterInit _ _, None
      | EvFlush _ _, None | EvMemTableClose _ _, None | EvBuild _, None
      | EvSaveMeta _ _ _, None | EvDeleteTxn _, None | EvAddUnusedRowset _, None
      | EvSegmentGroupRelease _, None => lock_after None rest
      | _, _ => None
      end
  end.

Definition is_unwind (e : Event) : bool :=
  match e with EvDeleteTxn _ | EvAddUnusedRowset _ => true | _ => false end.

(** A save of rowset metadata that did not succeed. *)
Definition is_failed_save (e : Event) : bool :=
  match e with EvSaveMeta _ _ st => negb (is_success st) | _ => false end.

(** An environment like [Scenario.env_ok] whose meta store refuses every
    save. *)
Definition env_save_fails : Env :=
  {| env_get_tablet := env_get_tablet Scenario.env_ok;
     env_prepare_txn := env_prepare_txn Scenario.env_ok;
     env_check_dir_existed := env_check_dir_existed Scenario.env_ok;
     env_create_dirs := env_create_dirs Scenario.env_ok;
     env_get_next_id := env_get_next_id Scenario.env_ok;
     env_rowset_writer_init := env_rowset_writer_init Scenario.env_ok;
     env_merge := env_merge Scenario.env_ok;
     env_memory_usage := env_memory_usage Scenario.env_ok;
     env_flush := env_flush Scenario.env_ok;
     env_close := env_close Scenario.env_ok;
     env_build_ok := env_build_ok Scenario.env_ok;
     env_save := fun _ _ _ => OLAP_ERR_OTHER 7;
     write_buffer_size := write_buffer_size Scenario.env_ok;
     BE_TEST := BE_TEST Scenario.env_ok |}.

(** An environment like [Scenario.env_ok] whose transaction manager refuses
    every transaction. *)
Definition env_prepare_fails : Env :=
  Scenario.env_of Scenario.only10 (Scenario.always (OLAP_ERR_OTHER 9))
    OLAP_SUCCESS OLAP_SUCCESS.

(** An initialised writer on tablet [t] that has taken the tuples [done]:
    the rows already in the rowset writer, followed by the rows still in the
    buffer, are the records of [done] in the order they were written. *)
Definition carries (t : Tablet) (col_ids : list nat) (done : list Tuple)
    (w : DeltaWriter) : Prop :=
  _is_init w = true /\ _tablet w = Some t /\ _col_ids w = col_ids /\
  exists mt rw,
    _mem_table w = Some mt /\ mt_col_ids mt = col_ids /\
    mt_keys_type mt = keys_type t /\
    _rowset_writer w = Some rw /\ rw_context rw <> None /\
    (rw_rows rw ++ mt_rows mt)%list = map (assemble_row col_ids) done.


(** * Rules *)

Section Rules.
Context {A B : Type}.
Implicit Types (s : St).

Lemma wp_bind (m : M A) (k : A -> M B) s Q :
  wp m s (fun r s' => match r with
                      | inl a => wp (k a) s' Q
                      | inr e => Q (inr e) s'
                      end) ->
  wp (bind m k) s Q.
Proof. unfold wp, bind. destruct (m s) as [[a|e] s']; simpl; auto. Qed.

Lemma wp_conseq (m : M A) s (Q Q' : A + Exit -> St -> Prop) :
  wp m s Q -> (forall r s', Q r s' -> Q' r s') -> wp m s Q'.
Proof. unfold wp. auto. Qed.

Lemma wp_ret (a : A) s Q : Q (inl a) s -> wp (ret a) s Q.
Proof. auto. Qed.

Lemma wp_return (st : OLAPStatus) s (Q : A + Exit -> St -> Prop) :
  Q (inr (Return st)) s -> wp (return_ st) s Q.
Proof. auto. Qed.

Lemma wp_segfault s (Q : A + Exit -> St -> Prop) :
  Q (inr Segfault) s -> wp segfault s Q.
Proof. auto. Qed.

Lemma wp_field (f : DeltaWriter -> A) s Q : Q (inl (f (dw s))) s -> wp (field f) s Q.
Proof. auto. Qed.

Lemma wp_ask (f : History -> A) s Q : Q (inl (f (hist s))) s -> wp (ask f) s Q.
Proof. auto. Qed.

Lemma wp_MutexLock id hash (body : M A) s Q :
  wp body {| dw := dw s; hist := hist s ++ [EvPushLock id hash];
             tablet_vec := tablet_vec s |}
     (fun r s' => Q r {| dw := dw s'; hist := hist s' ++ [EvPushUnlock id hash];
                         tablet_vec := tablet_vec s' |}) ->
  wp (MutexLock id hash body) s Q.
Proof.
  unfold wp, MutexLock, bind, emit. simpl.
  destruct (body _) as [r s']. simpl. auto.
Qed.
End Rules.

Lemma wp_modify f s (Q : unit + Exit -> St -> Prop) :
  Q (inl tt) {| dw := f (dw s); hist := hist s; tablet_vec := tablet_vec s |} ->
  wp (modify f) s Q.
Proof. auto. Qed.

Lemma wp_emit e s (Q : unit + Exit -> St -> Prop) :
  Q (inl tt) {| dw := dw s; hist := hist s ++ [e]; tablet_vec := tablet_vec s |} ->
  wp (emit e) s Q.
Proof. auto. Qed.

Lemma wp_Add i s (Q : unit + Exit -> St -> Prop) :
  Q (inl tt) {| dw := dw s; hist := hist s; tablet_vec := tablet_vec s ++ [i] |} ->
  wp (Add i) s Q.
Proof. auto. Qed.

Lemma wp_call (f : M OLAPStatus) s (Q : OLAPStatus + Exit -> St -> Prop) :
  wp f s (fun r s' => match r with
                      | inl st | inr (Return st) => Q (inl st) s'
                      | inr Segfault => Q (inr Segfault) s'
                      end) ->
  wp (call f) s Q.
Proof. unfold wp, call. destruct (f s) as [[st|[st|]] s']; simpl; auto. Qed.

(** The caller's view of a body is its postcondition read through
    [outcome_of]. *)
Lemma wp_run (f : M OLAPStatus) s (P : Outcome -> St -> Prop) :
  wp f s (fun r s' => P (outcome_of r) s') ->
  P (fst (run f s)) (snd (run f s)).
Proof. unfold wp, run. destruct (f s) as [r s']. auto. Qed.

Ltac wp_unfold :=
  unfold write_body, close_body, init, destroy, _garbage_collection, fresh_mem_table,
    MemTable_flush, MemTable_close, RowsetMetaManager_save, get_next_id, create_dirs,
    check_dir_existed, add_unused_rowset, delete_txn, prepare_txn, get_tablet,
    RETURN_NOT_OK, deref.

Ltac wp_step :=
  lazymatch goal with
  | |- wp (bind _ _) _ _ => apply wp_bind
  | |- wp (ret _) _ _ => apply wp_ret
  | |- wp (return_ _) _ _ => apply wp_return
  | |- wp segfault _ _ => apply wp_segfault
  | |- wp (field _) _ _ => apply wp_field
  | |- wp (ask _) _ _ => apply wp_ask
  | |- wp (modify _) _ _ => apply wp_modify
  | |- wp (emit _) _ _ => apply wp_emit
  | |- wp (Add _) _ _ => apply wp_Add
  | |- wp (MutexLock _ _ _) _ _ => apply wp_MutexLock
  | |- wp (call _) _ _ => apply wp_call
  | |- wp (if ?b then _ else _) _ _ => destruct b eqn:?
  | |- wp (match ?x with _ => _ end) _ _ => destruct x eqn:?
  end; cbv beta iota; cbn [dw hist tablet_vec].

Ltac wp_go := wp_unfold; repeat wp_step.

(** * The history *)

Lemma count_init_app h1 h2 : count_init (h1 ++ h2) = (count_init h1 + count_init h2)%nat.
Proof. unfold count_init. now rewrite filter_app, length_app. Qed.

Lemma count_init_quiet evs :
  forallb (fun e => negb (is_init_marker e)) evs = true -> count_init evs = 0%nat.
Proof.
  unfold count_init. induction evs as [|e evs IH]; simpl; auto.
  destruct (is_init_marker e); simpl; [discriminate | auto].
Qed.

Lemma init_event_quiet evs :
  forallb init_event evs = true ->
  forallb (fun e => negb (is_init_marker e)) evs = true.
Proof.
  induction evs as [|e evs IH]; simpl; auto.
  intros H. apply andb_true_iff in H as [He Hr]. rewrite (IH Hr).
  destruct e; simpl in *; auto; discriminate.
Qed.

Lemma events_since_app h evs : events_since h (h ++ evs) = evs.
Proof.
  unfold events_since. induction h as [|e h IH]; simpl; auto.
Qed.

(** * [init] *)

Lemma init_spec env s : wp (init env) s (init_post s).
Proof.
  wp_go.
  all: unfold init_post, init_frame, ready; cbn.
  all: repeat split; auto.
  all: try (eexists; rewrite <- !app_assoc; cbn; split; reflexivity).
  all: try (rewrite Heqb; reflexivity).
  all: try (destruct (is_success _); [discriminate | reflexivity]).
  all: try (do 3 eexists; repeat split; try reflexivity; discriminate).
Qed.

Lemma wp_ensure_init env s (Q : unit + Exit -> St -> Prop) :
  (_is_init (dw s) = true -> Q (inl tt) s) ->
  (_is_init (dw s) = false ->
   forall r s', init_post s r s' ->
     match r with
     | inl _ => Q (inl tt) s'
     | inr (Return st) => Q (inr (Return st)) s'
     | inr Segfault => True
     end) ->
  wp (ensure_init env) s Q.
Proof.
  intros Hdone Hrun. unfold ensure_init.
  apply wp_bind, wp_field. cbv beta iota.
  destruct (_is_init (dw s)) eqn:E; cbn [negb].
  - apply wp_ret; auto.
  - apply wp_bind, wp_call.
    eapply wp_conseq; [apply init_spec|].
    intros r s' Hpost. specialize (Hrun eq_refl r s' Hpost).
    destruct r as [st|[st|]].
    + destruct Hpost as (_ & _ & _ & -> & _). cbn. apply wp_ret. exact Hrun.
    + destruct Hpost as (_ & _ & _ & Hst & _). rewrite Hst. cbn.
      apply wp_return. exact Hrun.
    + destruct Hpost as (_ & _ & _ & []).
Qed.

(** * The destructor *)

Lemma release_all_spec gs s :
  release_all gs s =
  (inl tt, {| dw := dw s; hist := hist s ++ map EvSegmentGroupRelease gs;
              tablet_vec := tablet_vec s |}).
Proof.
  revert s. induction gs as [|g gs IH]; intros s; cbn.
  - rewrite app_nil_r. now destruct s.
  - unfold bind, emit. cbn. rewrite IH. cbn. now rewrite <- app_assoc.
Qed.

(** What [_garbage_collection] tells the transaction manager and the storage
    engine. *)
Lemma garbage_collection_events s :
  hist (snd (_garbage_collection s)) =
  hist s ++ [EvDeleteTxn (req_key (_req (dw s))); EvAddUnusedRowset (_cur_rowset (dw s))]
         ++ match _related_tablet (dw s) with
            | Some related =>
                [EvDeleteTxn (related_key (_req (dw s)) (tablet_id related)
                                (schema_hash related));
                 EvAddUnusedRowset (_related_rowset (dw s))]
            | None => []
            end.
Proof.
  unfold _garbage_collection, delete_txn, add_unused_rowset, bind, field, emit, ret.
  cbn. destruct (_related_tablet (dw s)); cbn; now rewrite <- !app_assoc.
Qed.

(** A writer whose [close] succeeded is destroyed without any unwind. *)
Lemma teardown_after_success s :
  _delta_written_success (dw s) = true ->
  events_since (hist s) (hist (teardown s)) =
  map EvSegmentGroupRelease (_segment_group_vec (dw s)).
Proof.
  intros H. unfold teardown, destroy, bind, field, modify. cbn. rewrite H. cbn.
  rewrite release_all_spec. cbn. apply events_since_app.
Qed.

(** Any other writer is unwound: the request's transaction is deleted and the
    current rowset handed over, and the same for the related tablet when the
    pointer to it is set. *)
Lemma teardown_unwinds s :
  _delta_written_success (dw s) = false ->
  events_since (hist s) (hist (teardown s)) =
  [EvDeleteTxn (req_key (_req (dw s))); EvAddUnusedRowset (_cur_rowset (dw s))]
  ++ match _related_tablet (dw s) with
     | Some related =>
         [EvDeleteTxn (related_key (_req (dw s)) (tablet_id related)
                         (schema_hash related));
          EvAddUnusedRowset (_related_rowset (dw s))]
     | None => []
     end
  ++ map EvSegmentGroupRelease (_segment_group_vec (dw s)).
Proof.
  intros H.
  unfold teardown, destroy, _garbage_collection, delete_txn, add_unused_rowset,
    bind, field, modify, emit, ret.
  cbn. rewrite H. cbn.
  destruct (_related_tablet (dw s)); cbn; rewrite release_all_spec; cbn;
    rewrite <- !app_assoc; apply events_since_app.
Qed.

(** * The column index mapping *)

Lemma matching_slots_absent column_name sl i :
  ~ In column_name (map col_name sl) -> matching_slots column_name sl i = [].
Proof.
  revert i. induction sl as [|slot sl IH]; intros i Hn; cbn; auto.
  destruct (String.eqb_spec (col_name slot) column_name) as [E|E].
  - exfalso. apply Hn. now left.
  - apply IH. intros Hin. apply Hn. now right.
Qed.

Lemma field_value_absent column_name sl tuple :
  ~ In column_name (map col_name sl) -> field_value sl tuple column_name = None.
Proof.
  revert tuple. induction sl as [|slot sl IH]; intros tuple Hn; cbn; auto.
  destruct tuple as [|v tuple]; auto.
  destruct (String.eqb_spec (col_name slot) column_name) as [E|E].
  - exfalso. apply Hn. now left.
  - apply IH. intros Hin. apply Hn. now right.
Qed.

(** With distinct slot names a column matches one slot, and the cell read
    through its index is the field of that name. *)
Lemma matching_slots_unique column_name sl :
  NoDup (map col_name sl) -> In column_name (map col_name sl) ->
  forall tuple pre i, List.length pre = i -> List.length tuple = List.length sl ->
    assemble_row (matching_slots column_name sl i) (pre ++ tuple)
    = [field_value sl tuple column_name].
Proof.
  induction sl as [|slot sl IH]; intros Hnd Hin tuple pre i Hpre Hlen.
  - destruct Hin.
  - destruct tuple as [|v tuple]; [discriminate|].
    cbn in Hnd. apply NoDup_cons_iff in Hnd as [Hfresh Hnd].
    cbn. destruct (String.eqb_spec (col_name slot) column_name) as [E|E].
    + rewrite matching_slots_absent by (rewrite <- E; exact Hfresh).
      cbn. rewrite nth_error_app2 by lia.
      replace (i - List.length pre)%nat with 0%nat by lia. reflexivity.
    + destruct Hin as [Hin|Hin]; [contradiction|].
      replace (pre ++ v :: tuple) with ((pre ++ [v]) ++ tuple)
        by now rewrite <- app_assoc.
      apply IH; auto; try (rewrite length_app; cbn; lia).
Qed.

(** X13: the mapping routes every field to the column of its name, whatever
    the order of the fields, as long as no two fields share a name and every
    column is named by a field: the record assembled through it holds, cell by
    cell, the value of the field named like the column. *)
Lemma col_ids_route_by_name schema sl tuple :
  NoDup (map col_name sl) ->
  (forall column, In column (columns schema) -> In (name column) (map col_name sl)) ->
  List.length tuple = List.length sl ->
  assemble_row (build_col_ids schema sl) tuple
  = map (fun column => field_value sl tuple (name column)) (columns schema).
Proof.
  intros Hnd Hall Hlen. unfold build_col_ids.
  induction (columns schema) as [|column cols IH]; cbn; auto.
  unfold assemble_row in *. rewrite map_app. rewrite IH.
  - f_equal.
    change (map (fun i => nth_error tuple i) (matching_slots (name column) sl 0))
      with (assemble_row (matching_slots (name column) sl 0) ([] ++ tuple)).
    rewrite (matching_slots_unique (name column) sl Hnd); auto.
    apply Hall. now left.
  - intros c Hc. apply Hall. now right.
Qed.

(** The instance the specification names: for a schema with columns
    [a; b; c] and a row shape with fields [c; a; b], the column index mapping
    built by [init] is [1; 2; 0], and a
    tuple holding [vc; va; vb] for those fields is assembled into the record
    [va; vb; vc]: read back in schema order it gives each column the value of
    the field of the same name. *)
Theorem col_ids_abc_cab (a b c : string) (va vb vc : Datum) :
  a <> b -> a <> c -> b <> c ->
  let schema := {| columns := [ {| name := a |}; {| name := b |}; {| name := c |} ] |} in
  let sl := [ {| col_name := c |}; {| col_name := a |}; {| col_name := b |} ] in
  let tuple := [vc; va; vb] in
  build_col_ids schema sl = [1; 2; 0]%nat /\
  assemble_row (build_col_ids schema sl) tuple = [Some va; Some vb; Some vc] /\
  assemble_row (build_col_ids schema sl) tuple
  = map (fun column => field_value sl tuple (name column)) (columns schema).
Proof.
  intros Hab Hac Hbc schema sl tuple.
  assert (E : build_col_ids schema sl = [1; 2; 0]%nat).
  { unfold build_col_ids, schema, sl. cbn.
    rewrite !String.eqb_refl.
    rewrite (proj2 (String.eqb_neq c a)) by congruence.
    rewrite (proj2 (String.eqb_neq b a)) by congruence.
    rewrite (proj2 (String.eqb_neq c b)) by congruence.
    rewrite (proj2 (String.eqb_neq a b)) by congruence.
    rewrite (proj2 (String.eqb_neq a c)) by congruence.
    rewrite (proj2 (String.eqb_neq b c)) by congruence.
    reflexivity. }
  rewrite E. split; [reflexivity|]. split; [reflexivity|].
  unfold schema, sl, tuple. cbn.
  rewrite !String.eqb_refl.
  rewrite (proj2 (String.eqb_neq c a)) by congruence.
  rewrite (proj2 (String.eqb_neq c b)) by congruence.
  rewrite (proj2 (String.eqb_neq a b)) by congruence.
  reflexivity.
Qed.

Lemma col_ids_abc_cab_witness :
  ("a" <> "b" /\ "a" <> "c" /\ "b" <> "c")%string /\
  build_col_ids Scenario.schema_abc (slots Scenario.desc_cab) = [1; 2; 0]%nat /\
  assemble_row (build_col_ids Scenario.schema_abc (slots Scenario.desc_cab)) [30; 10; 20]
  = [Some 10; Some 20; Some 30].
Proof.
  assert (Hab : ("a" <> "b")%string) by discriminate.
  assert (Hac : ("a" <> "c")%string) by discriminate.
  assert (Hbc : ("b" <> "c")%string) by discriminate.
  split; [auto|].
  destruct (col_ids_abc_cab "a" "b" "c" 10 20 30 Hab Hac Hbc) as (E1 & E2 & _).
  split; [exact E1 | exact E2].
Defined.

(** [init] stores the mapping in the writer and gives it to the first row
    buffer. *)
Lemma init_builds_col_ids env s :
  wp (init env) s (fun r s' =>
    r = inl OLAP_SUCCESS ->
    exists t mt,
      _tablet (dw s') = Some t /\ _mem_table (dw s') = Some mt /\
      _col_ids (dw s') =
        (_col_ids (dw s)
           ++ build_col_ids (tablet_schema t) (slots (req_tuple_desc (_req (dw s)))))%list /\
      mt_col_ids mt = _col_ids (dw s')).
Proof.
  wp_go; intros H; try discriminate.
  all: cbn; do 2 eexists; repeat split; reflexivity.
Qed.

(** * Unknown tablet *)

(** On a writer that is still as [open] left it, a [write] or a [close] for
    a tablet the directory does not know stops at the lookup. *)
Lemma step_unknown_tablet env req op s :
  (forall h, env_get_tablet env h (req_tablet_id req) (req_schema_hash req) = None) ->
  dw s = snd (open req) ->
  run (step env op) s =
  (Returned OLAP_ERR_TABLE_NOT_FOUND,
   {| dw := dw s;
      hist := hist s ++ [EvInit; EvGetTablet (req_tablet_id req) (req_schema_hash req)];
      tablet_vec := tablet_vec s |}).
Proof.
  intros Hnone Hdw. destruct s as [w h v]. cbn in Hdw. subst w.
  destruct op; cbn [step];
    unfold run, write, close, ensure_init, call, init, get_tablet,
      bind, field, emit, ask, modify, ret, return_;
    cbn; rewrite Hnone; cbn; now rewrite <- app_assoc.
Qed.

Lemma run_ops_unknown_tablet env req ops :
  (forall h, env_get_tablet env h (req_tablet_id req) (req_schema_hash req) = None) ->
  forall s, dw s = snd (open req) ->
  let r := run_ops env ops s in
  Forall (fun o => o = Returned OLAP_ERR_TABLE_NOT_FOUND) (fst r) /\
  List.length (fst r) = List.length ops /\
  dw (snd r) = snd (open req) /\
  tablet_vec (snd r) = tablet_vec s /\
  exists evs, hist (snd r) = hist s ++ evs /\ filter is_prepare evs = [].
Proof.
  intros Hnone. induction ops as [|op ops IH]; intros s Hdw; cbn.
  - repeat split; auto. exists []. now rewrite app_nil_r.
  - rewrite (step_unknown_tablet env req op s Hnone Hdw).
    set (s1 := {| dw := dw s; hist := _; tablet_vec := _ |}).
    destruct (IH s1 Hdw) as (Hall & Hlen & Hdw' & Hvec & evs & Hh & Hq).
    destruct (run_ops env ops s1) as [os s2]. cbn in *.
    repeat split; auto.
    eexists. rewrite Hh, <- app_assoc. split; [reflexivity|].
    cbn. exact Hq.
Qed.

(** C2, as amended: when the directory does not know the request's tablet,
    every [write] and [close] returns OLAP_ERR_TABLE_NOT_FOUND, the writer stays as
    [open] left it and no transaction is prepared; the destructor then still
    calls [delete_txn] once, for the request's own key, and hands a null
    rowset to the storage engine, and does nothing else. *)
Theorem unknown_tablet_not_found_then_unwind env req h vec ops :
  (forall h', env_get_tablet env h' (req_tablet_id req) (req_schema_hash req) = None) ->
  let r := run_ops env ops (opened req h vec) in
  Forall (fun o => o = Returned OLAP_ERR_TABLE_NOT_FOUND) (fst r) /\
  List.length (fst r) = List.length ops /\
  dw (snd r) = snd (open req) /\
  tablet_vec (snd r) = vec /\
  filter is_prepare (events_since h (hist (snd r))) = [] /\
  events_since (hist (snd r)) (hist (teardown (snd r)))
  = [EvDeleteTxn (req_key req); EvAddUnusedRowset None].
Proof.
  intros Hnone r.
  destruct (run_ops_unknown_tablet env req ops Hnone (opened req h vec) eq_refl)
    as (Hall & Hlen & Hdw & Hvec & evs & Hh & Hq).
  fold r in Hall, Hlen, Hdw, Hvec, Hh.
  repeat split; auto.
  - cbn in Hh. rewrite Hh, events_since_app. exact Hq.
  - rewrite teardown_unwinds by (rewrite Hdw; reflexivity).
    rewrite Hdw. reflexivity.
Qed.

Lemma unknown_tablet_not_found_then_unwind_witness :
  (forall h', env_get_tablet Scenario.env_missing h' 10 77 = None) /\
  fst (run_ops Scenario.env_missing [OpWrite [1; 2; 3]; OpClose]
         (opened (Scenario.request false) [] []))
  = [Returned OLAP_ERR_TABLE_NOT_FOUND; Returned OLAP_ERR_TABLE_NOT_FOUND] /\
  events_since
    (hist (snd (run_ops Scenario.env_missing [OpWrite [1; 2; 3]; OpClose]
                  (opened (Scenario.request false) [] []))))
    (hist (teardown (snd (run_ops Scenario.env_missing [OpWrite [1; 2; 3]; OpClose]
                            (opened (Scenario.request false) [] [])))))
  = [EvDeleteTxn Scenario.key10; EvAddUnusedRowset None].
Proof.
  assert (H : forall h', env_get_tablet Scenario.env_missing h' 10 77 = None)
    by (intros; reflexivity).
  split; [exact H|].
  pose proof (unknown_tablet_not_found_then_unwind Scenario.env_missing
                (Scenario.request false) [] [] [OpWrite [1; 2; 3]; OpClose] H)
    as (_ & _ & _ & _ & _ & Hunwind).
  split; [reflexivity | exact Hunwind].
Defined.

(** C2, as stated, fails: after a [write] that did not find the tablet the
    destructor is not a no-op, it calls [delete_txn]. *)
Lemma unknown_tablet_teardown_not_noop :
  let r := run (write Scenario.env_missing [1; 2; 3])
             (opened (Scenario.request false) [] []) in
  ~ (fst r = Returned OLAP_ERR_TABLE_NOT_FOUND /\
     filter is_prepare (hist (snd r)) = [] /\
     events_since (hist (snd r)) (hist (teardown (snd r))) = [] /\
     filter is_delete (hist (teardown (snd r))) = []).
Proof. cbv zeta. intros (_ & _ & H & _). vm_compute in H. discriminate. Qed.

(** * Failing inputs *)

(** C1 at its failing input: tablet 10 records a migration to tablet 20,
    which the directory does not know.  [init] prepares a transaction for
    tablet 20 all the same; the writer is dropped after one [write]; the
    destructor deletes the transaction of tablet 10 only. *)
Theorem teardown_leaves_related_txn :
  let r := run (write Scenario.env_dangling [1; 2; 3])
             (opened (Scenario.request true) [] []) in
  fst r = Returned OLAP_SUCCESS /\
  _delta_written_success (dw (snd r)) = false /\
  _related_tablet (dw (snd r)) = None /\
  prepared (hist (snd r)) Scenario.key10 = true /\
  prepared (hist (snd r)) Scenario.key20 = true /\
  deleted (hist (teardown (snd r))) Scenario.key10 = true /\
  deleted (hist (teardown (snd r))) Scenario.key20 = false.
Proof. vm_compute. repeat split. Qed.

(** C6 at its failing input: tablet 10 is migrated to tablet 20, every
    collaborator succeeds, and [close] is the first call.  The primary rowset
    is saved, the pending directory of tablet 20 is made under its lock, no
    conversion is called, and the save of the related rowset follows the null
    [_related_rowset]: [close] does not return. *)
Theorem close_with_related_tablet_crashes :
  let r := run (close Scenario.env_dual) (opened (Scenario.request true) [] []) in
  fst r = Crashed /\
  _related_tablet (dw (snd r)) = Some Scenario.tablet20 /\
  _related_rowset (dw (snd r)) = None /\
  filter is_convert (hist (snd r)) = [] /\
  filter is_save (hist (snd r)) = [EvSaveMeta "/data"%string 5 OLAP_SUCCESS] /\
  tablet_vec (snd r) = [] /\
  _delta_written_success (dw (snd r)) = false.
Proof. vm_compute. repeat split. Qed.

(** C8 at its failing input: tablet 10 is migrated to tablet 20 and the
    transaction manager refuses the transaction of tablet 20.  [init] does
    not look at that status: it goes on and returns OLAP_SUCCESS. *)
Theorem init_ignores_related_prepare_status :
  let r := run (init Scenario.env_refuse20) (opened (Scenario.request true) [] []) in
  fst r = Returned OLAP_SUCCESS /\
  _is_init (dw (snd r)) = true /\
  In (EvPrepareTxn Scenario.key20 (3, 4) (OLAP_ERR_OTHER 1)) (hist (snd r)) /\
  prepared (hist (snd r)) Scenario.key20 = false.
Proof.
  vm_compute. repeat split. do 7 right. left. reflexivity.
Qed.

(** X14: the prepare for the primary tablet, by contrast, is checked: a
    failure there ends [init] at once, with that status, the push lock
    released, no further call made and [_is_init] as it was. *)
Lemma init_stops_at_primary_prepare_failure env s t :
  let req := _req (dw s) in
  let h1 := hist s ++ [EvInit] in
  let h2 := h1 ++ [EvGetTablet (req_tablet_id req) (req_schema_hash req)] in
  let h3 := h2 ++ [EvPushLock (tablet_id t) (schema_hash t)] in
  let st := env_prepare_txn env h3 (req_key req) (req_load_id req) in
  env_get_tablet env h1 (req_tablet_id req) (req_schema_hash req) = Some t ->
  is_success st = false ->
  fst (run (init env) s) = Returned st /\
  hist (snd (run (init env) s))
  = h3 ++ [EvPrepareTxn (req_key req) (req_load_id req) st;
           EvPushUnlock (tablet_id t) (schema_hash t)] /\
  _is_init (dw (snd (run (init env) s))) = _is_init (dw s).
Proof.
  intros req h1 h2 h3 st Ht Hst.
  unfold run, init, MutexLock, get_tablet, prepare_txn, RETURN_NOT_OK,
    bind, field, emit, ask, modify, ret, return_.
  cbn. fold req. fold h1. rewrite Ht. cbn. fold h2. fold h3. fold st.
  rewrite Hst. cbn. rewrite <- app_assoc. repeat split.
Qed.

(** * [write] on an initialised writer *)

(** The whole of [write] when the writer is initialised and its pointers are
    set: the insert, the threshold test, and the two ways a flush can end. *)
Lemma write_initialised env s tuple t mt rw :
  _is_init (dw s) = true ->
  _tablet (dw s) = Some t ->
  _mem_table (dw s) = Some mt ->
  _rowset_writer (dw s) = Some rw ->
  let mt' := MemTable_insert env mt tuple in
  let st := env_flush env (hist s) mt' in
  let flushed := hist s ++ [EvFlush (mt_rows mt') st] in
  run (write env tuple) s =
  if threshold env <=? memory_usage env mt' then
    if is_success st then
      (Returned OLAP_SUCCESS,
       {| dw := set_mem_table
                  (Some (new_MemTable (_schema (dw s)) (_tablet_schema (dw s))
                           (_col_ids (dw s)) (req_tuple_desc (_req (dw s)))
                           (keys_type t)))
                  (set_mem_table None
                     (set_rowset_writer (Some (add_rowset rw (mt_rows mt')))
                        (set_mem_table (Some mt') (dw s))));
          hist := flushed; tablet_vec := tablet_vec s |})
    else
      (Returned st,
       {| dw := set_mem_table (Some mt') (dw s);
          hist := flushed; tablet_vec := tablet_vec s |})
  else
    (Returned OLAP_SUCCESS,
     {| dw := set_mem_table (Some mt') (dw s);
        hist := hist s; tablet_vec := tablet_vec s |}).
Proof.
  intros Hinit Ht Hmt Hrw mt' st flushed.
  unfold run, write, ensure_init, write_body, MemTable_flush, fresh_mem_table,
    RETURN_NOT_OK, deref, bind, field, emit, ask, modify, ret, return_.
  cbn. rewrite Hinit. cbn. rewrite Hmt. cbn. fold mt'.
  destruct (threshold env <=? memory_usage env mt'); cbn; [|reflexivity].
  rewrite Hrw. cbn. fold st.
  destruct (is_success st) eqn:Hst; cbn.
  - rewrite Hst. cbn. rewrite Ht. cbn. reflexivity.
  - rewrite Hst. cbn. reflexivity.
Qed.

(** A [write] on a writer that is not initialised runs [init] first and, when
    that succeeds, goes on as a [write] on the initialised writer. *)
Lemma write_runs_init_first env s tuple :
  _is_init (dw s) = false ->
  fst (init env s) = inl OLAP_SUCCESS ->
  ready (dw (snd (init env s))) /\
  run (write env tuple) s = run (write env tuple) (snd (init env s)).
Proof.
  intros Hinit Hok.
  pose proof (init_spec env s) as Hpost. unfold wp in Hpost.
  destruct Hpost as (_ & _ & _ & Hr). rewrite Hok in Hr.
  destruct Hr as (_ & Hready). split; [exact Hready|].
  destruct Hready as (Hinit' & _).
  destruct (init env s) as [r s1] eqn:E. cbn in Hok, Hinit' |- *. subst r.
  unfold run, write, ensure_init, call, bind, field, ret. cbv beta iota.
  rewrite Hinit. cbn [negb]. cbv beta iota. rewrite E. cbv beta iota.
  cbn [is_success negb]. cbv beta iota. rewrite Hinit'. reflexivity.
Qed.

(** * What the bodies leave alone *)

Lemma count_init_snoc h e :
  count_init (h ++ [e]) = (count_init h + if is_init_marker e then 1 else 0)%nat.
Proof. rewrite count_init_app. unfold count_init. cbn. now destruct (is_init_marker e). Qed.

Ltac quiet :=
  cbn; rewrite ?count_init_snoc; cbn; rewrite ?Nat.add_0_r; auto.

Lemma write_body_quiet env tuple s :
  wp (write_body env tuple) s (fun _ s' =>
    _is_init (dw s') = _is_init (dw s) /\
    count_init (hist s') = count_init (hist s) /\
    _related_rowset (dw s') = _related_rowset (dw s)).
Proof. wp_go; quiet. Qed.

Lemma close_body_quiet env s :
  wp (close_body env) s (fun _ s' =>
    _is_init (dw s') = _is_init (dw s) /\
    count_init (hist s') = count_init (hist s) /\
    _related_rowset (dw s') = _related_rowset (dw s)).
Proof. wp_go; quiet. Qed.

Lemma step_body_quiet env op s (Q : OLAPStatus + Exit -> St -> Prop) :
  (forall r s', _is_init (dw s') = _is_init (dw s) ->
                count_init (hist s') = count_init (hist s) ->
                _related_rowset (dw s') = _related_rowset (dw s) -> Q r s') ->
  wp (match op with
      | OpWrite tuple => write_body env tuple
      | OpClose => close_body env
      end) s Q.
Proof.
  intros HQ. destruct op.
  - eapply wp_conseq; [apply write_body_quiet|]. intros r s' (H1 & H2 & H3); auto.
  - eapply wp_conseq; [apply close_body_quiet|]. intros r s' (H1 & H2 & H3); auto.
Qed.

Lemma step_unfold env op :
  step env op = (ensure_init env ;;;
                 match op with
                 | OpWrite tuple => write_body env tuple
                 | OpClose => close_body env
                 end).
Proof. now destruct op. Qed.

(** One call of [write] or [close]: it enters [init] exactly when the writer
    is not initialised, never clears [_is_init], and never assigns
    [_related_rowset]. *)
Lemma step_counts env op s :
  let s' := snd (run (step env op) s) in
  count_init (hist s') = (count_init (hist s) + if _is_init (dw s) then 0 else 1)%nat /\
  (_is_init (dw s) = true -> _is_init (dw s') = true) /\
  _related_rowset (dw s') = _related_rowset (dw s).
Proof.
  apply (wp_run (step env op) s (fun _ s' =>
    count_init (hist s') = (count_init (hist s) + if _is_init (dw s) then 0 else 1)%nat /\
    (_is_init (dw s) = true -> _is_init (dw s') = true) /\
    _related_rowset (dw s') = _related_rowset (dw s))).
  rewrite step_unfold. apply wp_bind, wp_ensure_init.
  - intros Hinit. apply step_body_quiet. intros r s' H1 H2 H3.
    rewrite Hinit, H1, H2, H3, Nat.add_0_r. auto.
  - intros Hinit r s1 ((evs & Hh & Hevs) & _ & (_ & _ & _ & Hrel & _) & Hr).
    assert (Hc : count_init (hist s1) = (count_init (hist s) + 1)%nat).
    { rewrite Hh, count_init_app.
      change (EvInit :: evs) with ([EvInit] ++ evs). rewrite count_init_app.
      rewrite (count_init_quiet evs) by now apply init_event_quiet.
      reflexivity. }
    rewrite Hinit.
    destruct r as [st|[st|]]; [| |exact I].
    + apply step_body_quiet. intros r s' H1 H2 H3.
      rewrite H2, H3, Hc, Hrel. repeat split. discriminate.
    + rewrite Hc, Hrel. repeat split. discriminate.
Qed.

Lemma run_ops_cons env op ops s :
  snd (run_ops env (op :: ops) s) =
  match fst (run (step env op) s) with
  | Crashed => snd (run (step env op) s)
  | Returned _ => snd (run_ops env ops (snd (run (step env op) s)))
  end.
Proof.
  cbn. destruct (run (step env op) s) as [[st|] s1]; cbn; auto.
  now destruct (run_ops env ops s1).
Qed.

(** Once initialised, always initialised, and [init] is not entered again. *)
Lemma run_ops_initialised env ops : forall s,
  _is_init (dw s) = true ->
  count_init (hist (snd (run_ops env ops s))) = count_init (hist s) /\
  _is_init (dw (snd (run_ops env ops s))) = true.
Proof.
  induction ops as [|op ops IH]; intros s Hinit; [cbn; auto|].
  rewrite run_ops_cons.
  destruct (step_counts env op s) as (Hc & Hi & _).
  rewrite Hinit, Nat.add_0_r in Hc. specialize (Hi Hinit).
  destruct (fst (run (step env op) s)).
  - destruct (IH _ Hi) as (Hc' & Hi'). rewrite Hc', Hc. auto.
  - auto.
Qed.

(** C3, as amended: the first [write] or [close] on a fresh writer enters
    [init] once; if that leaves the writer initialised, no later [write] or
    [close] enters it again, however many follow; if it failed, the writer is
    still uninitialised and the next [write] or [close] enters [init] a second
    time. *)
Theorem init_once_it_succeeds env req vec op ops :
  let s1 := snd (run (step env op) (opened req [] vec)) in
  count_init (hist s1) = 1%nat /\
  (_is_init (dw s1) = true ->
   count_init (hist (snd (run_ops env ops s1))) = 1%nat /\
   _is_init (dw (snd (run_ops env ops s1))) = true) /\
  (_is_init (dw s1) = false ->
   forall op2, count_init (hist (snd (run (step env op2) s1))) = 2%nat).
Proof.
  intros s1.
  destruct (step_counts env op (opened req [] vec)) as (Hc & _).
  cbn in Hc. fold s1 in Hc. split; [exact Hc|]. split.
  - intros Hinit. destruct (run_ops_initialised env ops s1 Hinit) as (Hc' & Hi').
    rewrite Hc', Hc. auto.
  - intros Hinit op2. destruct (step_counts env op2 s1) as (Hc2 & _).
    rewrite Hc2, Hc, Hinit. reflexivity.
Qed.

Lemma init_once_it_succeeds_witness :
  _is_init (dw (snd (run (step Scenario.env_ok (OpWrite [1; 2; 3]))
                       (opened (Scenario.request false) [] [])))) = true /\
  count_init
    (hist (snd (run_ops Scenario.env_ok [OpWrite [4; 5; 6]; OpWrite [7; 8; 9]; OpClose]
                  (snd (run (step Scenario.env_ok (OpWrite [1; 2; 3]))
                          (opened (Scenario.request false) [] [])))))) = 1%nat.
Proof.
  assert (H : _is_init (dw (snd (run (step Scenario.env_ok (OpWrite [1; 2; 3]))
                                   (opened (Scenario.request false) [] [])))) = true)
    by reflexivity.
  split; [exact H|].
  exact (proj1 (proj1 (proj2 (init_once_it_succeeds Scenario.env_ok
                                (Scenario.request false) [] (OpWrite [1; 2; 3])
                                [OpWrite [4; 5; 6]; OpWrite [7; 8; 9]; OpClose])) H)).
Defined.

(** C3, as stated, fails: when the id generator refuses, every call enters
    [init] again, and two writes and a close enter it three times. *)
Lemma init_entered_again_after_failure :
  ~ (count_init
       (hist (snd (run_ops Scenario.env_no_id
                     [OpWrite [1; 2; 3]; OpWrite [4; 5; 6]; OpClose]
                     (opened (Scenario.request false) [] [])))) = 1%nat).
Proof. vm_compute. discriminate. Qed.

(** * Buffer rotation *)









(** * [close] *)

Ltac not_success :=
  match goal with
  | H : outcome_of _ = Returned OLAP_SUCCESS |- _ =>
      cbn in H;
      first [ discriminate H
            | congruence
            | injection H as H;
              first [ subst; cbn in *; discriminate
                    | rewrite H in *; cbn in *; discriminate ] ]
  end.

(** The part of [close] after the prologue, when it succeeds. *)
Lemma close_body_success env s :
  wp (close_body env) s (fun r s' =>
    outcome_of r = Returned OLAP_SUCCESS ->
    exists t,
      _tablet (dw s) = Some t /\ _tablet (dw s') = Some t /\
      _related_tablet (dw s') = _related_tablet (dw s) /\
      (_related_tablet (dw s) <> None -> _related_rowset (dw s) <> None) /\
      _delta_written_success (dw s') = true /\
      tablet_vec s' =
        (tablet_vec s ++
         if BE_TEST env then []
         else tablet_info t :: match _related_tablet (dw s) with
                               | Some related => [tablet_info related]
                               | None => []
                               end)%list).
Proof.
  wp_go; intros Hok; try not_success.
  all: cbn in *.
  all: try match goal with H : _related_tablet _ = _ |- _ => rewrite H end.
  all: eexists; repeat split; try eassumption; try reflexivity.
  all: try congruence.
  all: try (rewrite <- ?app_assoc, ?app_nil_r; reflexivity).
Qed.

Lemma close_success env s :
  wp (close env) s (fun r s' =>
    outcome_of r = Returned OLAP_SUCCESS ->
    exists t,
      _tablet (dw s') = Some t /\
      (_related_tablet (dw s') <> None -> _related_rowset (dw s) <> None) /\
      _delta_written_success (dw s') = true /\
      tablet_vec s' =
        (tablet_vec s ++
         if BE_TEST env then []
         else tablet_info t :: match _related_tablet (dw s') with
                               | Some related => [tablet_info related]
                               | None => []
                               end)%list).
Proof.
  unfold close. apply wp_bind, wp_ensure_init.
  - intros _. eapply wp_conseq; [apply close_body_success|].
    intros r s' H Hok. destruct (H Hok) as (t & _ & Ht & Hrel & Hneed & Hflag & Hvec).
    exists t. rewrite Hrel. auto.
  - intros _ r s1 (_ & Hv & (_ & _ & _ & Hrr & _) & Hr).
    destruct r as [st|[st|]]; [| |exact I].
    + eapply wp_conseq; [apply close_body_success|].
      intros r s' H Hok. destruct (H Hok) as (t & _ & Ht & Hrel & Hneed & Hflag & Hvec).
      exists t. rewrite Hrel, <- Hrr, <- Hv. auto.
    + intros Hok. cbn in Hok. injection Hok as ->. destruct Hr as [Hr _]. discriminate.
Qed.

(** The record for the related tablet is appended as soon as a related
    rowset exists: here on a writer built by hand, since no member function
    assigns [_related_rowset]. *)
Example close_reports_both_given_related_rowset :
  let w := dw (snd (run (init Scenario.env_dual)
                      (opened (Scenario.request true) [] []))) in
  let s := {| dw := {| _is_init := _is_init w; _req := _req w; _tablet := _tablet w;
                       _cur_rowset := _cur_rowset w;
                       _related_rowset :=
                         Some {| rowset_id := 6; rowset_meta := None; rowset_rows := [] |};
                       _related_tablet := _related_tablet w;
                       _rowset_writer := _rowset_writer w;
                       _mem_table := _mem_table w; _schema := _schema w;
                       _tablet_schema := _tablet_schema w; _col_ids := _col_ids w;
                       _delta_written_success := _delta_written_success w;
                       _segment_group_vec := _segment_group_vec w |};
              hist := []; tablet_vec := [] |} in
  fst (run (close Scenario.env_dual) s) = Returned OLAP_SUCCESS /\
  tablet_vec (snd (run (close Scenario.env_dual) s))
  = [ {| info_tablet_id := 10; info_schema_hash := 77 |};
      {| info_tablet_id := 20; info_schema_hash := 88 |} ].
Proof. vm_compute. split; reflexivity. Qed.

(** * The related tablet at [close] *)

Lemma run_ops_related_rowset env ops : forall s,
  _related_rowset (dw (snd (run_ops env ops s))) = _related_rowset (dw s).
Proof.
  induction ops as [|op ops IH]; intros s; [reflexivity|].
  rewrite run_ops_cons.
  destruct (step_counts env op s) as (_ & _ & Hrel).
  destruct (fst (run (step env op) s)); [rewrite IH|]; exact Hrel.
Qed.

(** X15: no run assigns [_related_rowset], and [close] follows that pointer
    as soon as a related tablet is set: after any run of a freshly opened
    writer, a [close] that returns OLAP_SUCCESS was not a dual write. *)
Lemma close_never_succeeds_with_related env req vec ops :
  let s := snd (run_ops env ops (opened req [] vec)) in
  fst (run (close env) s) = Returned OLAP_SUCCESS ->
  _related_tablet (dw (snd (run (close env) s))) = None.
Proof.
  intros s.
  assert (Hnull : _related_rowset (dw s) = None).
  { unfold s. rewrite run_ops_related_rowset. reflexivity. }
  apply (wp_run (close env) s (fun o s' =>
    o = Returned OLAP_SUCCESS -> _related_tablet (dw s') = None)).
  eapply wp_conseq; [apply close_success|].
  intros r s' H Hok. destruct (H Hok) as (t & _ & Hneed & _).
  destruct (_related_tablet (dw s')); [|reflexivity].
  exfalso. apply Hneed; [discriminate | exact Hnull].
Qed.

(** Nothing in the file calls the schema-change conversion. *)
Lemma step_never_converts env op s :
  filter is_convert (hist s) = [] ->
  filter is_convert (hist (snd (run (step env op) s))) = [].
Proof.
  intros Hq.
  apply (wp_run (step env op) s (fun _ s' => filter is_convert (hist s') = [])).
  assert (Hbody : forall s1, filter is_convert (hist s1) = [] ->
            wp (match op with
                | OpWrite tuple => write_body env tuple
                | OpClose => close_body env
                end) s1 (fun _ s' => filter is_convert (hist s') = [])).
  { intros s1 H1. destruct op; wp_go; cbn; rewrite ?filter_app, ?H1; reflexivity. }
  rewrite step_unfold. apply wp_bind, wp_ensure_init.
  - intros _. apply Hbody, Hq.
  - intros _ r s1 ((evs & Hh & Hevs) & _).
    assert (H1 : filter is_convert (hist s1) = []).
    { rewrite Hh, filter_app, Hq. cbn.
      clear Hh. induction evs as [|e evs IH]; [reflexivity|].
      cbn in Hevs. apply andb_true_iff in Hevs as [He Hr].
      cbn. destruct e; cbn in *; try discriminate; auto. }
    destruct r as [st|[st|]]; [apply Hbody| |exact I]; exact H1.
Qed.

(** * [close] as the first call *)

Ltac dw_fields :=
  cbn [opened open new_DeltaWriter snd fst dw hist tablet_vec
       _is_init _req _tablet _cur_rowset _related_rowset _related_tablet
       _rowset_writer _mem_table _schema _tablet_schema _col_ids
       _delta_written_success _segment_group_vec
       set_is_init set_tablet set_cur_rowset set_related_tablet set_rowset_writer
       set_mem_table set_schema set_tablet_schema set_col_ids
       set_delta_written_success negb is_success
       add_rowset rw_context rw_rows new_MemTable mt_rows app rowset_rows rowset_id].



(** * Further properties of the member functions *)

Ltac hist_norm :=
  cbn [hist dw tablet_vec fst snd];
  rewrite <- ?app_assoc; cbn [app]; rewrite ?events_since_app.

Lemma step_is_body env op : step env op = (ensure_init env ;;; step_body env op).
Proof. now destruct op. Qed.

(** The three ways a [write] or a [close] starts: on an initialised writer it
    is its body; otherwise [init] runs first, and the body follows when
    [init] succeeded. *)
Lemma step_cases env op s :
  (_is_init (dw s) = true /\ step env op s = step_body env op s) \/
  (_is_init (dw s) = false /\
   exists s1, init env s = (inl OLAP_SUCCESS, s1) /\
              step env op s = step_body env op s1) \/
  (_is_init (dw s) = false /\
   exists st s1, init env s = (inr (Return st), s1) /\ is_success st = false /\
                 step env op s = (inr (Return st), s1)).
Proof.
  pose proof (init_spec env s) as Hpost. unfold wp, init_post in Hpost.
  destruct Hpost as (_ & _ & _ & Hr).
  rewrite step_is_body. unfold ensure_init, call, bind, field, ret, return_.
  cbv beta iota.
  destruct (_is_init (dw s)) eqn:Hi; cbn [negb]; cbv beta iota; [left; auto|right].
  destruct (init env s) as [[st|[st|]] s1]; cbn [fst snd] in Hr; cbv beta iota.
  - destruct Hr as (-> & _). cbn. left. split; [reflexivity|]. exists s1. auto.
  - destruct Hr as (Hst & _). rewrite Hst. cbn. right. split; [reflexivity|].
    exists st, s1. auto.
  - destruct Hr.
Qed.

(** X1: [init] always returns.  It leaves the request, the success flag, both
    rowsets and the caller's collection as they were.  When it returns
    OLAP_SUCCESS the writer is initialised, with its tablet, an empty row buffer
    and an initialised rowset writer without rows.  When it returns an error,
    [_is_init] is as before, and the error is one of the three codes [init]
    names or the status of a [prepare_txn] or [create_dirs] call it made. *)
Theorem init_outcomes env s :
  let r := run (init env) s in
  let evs := events_since (hist s) (hist (snd r)) in
  hist (snd r) = hist s ++ evs /\
  tablet_vec (snd r) = tablet_vec s /\
  init_frame (dw s) (dw (snd r)) /\
  match fst r with
  | Returned OLAP_SUCCESS => ready (dw (snd r))
  | Returned st =>
      _is_init (dw (snd r)) = _is_init (dw s) /\
      (st = OLAP_ERR_TABLE_NOT_FOUND \/
       st = OLAP_ERR_ROWSET_GENERATE_ID_FAILED \/
       st = OLAP_ERR_ROWSET_WRITER_INIT \/
       (exists k l, In (EvPrepareTxn k l st) evs) \/
       (exists p, In (EvCreateDirs p st) evs))
  | Crashed => False
  end.
Proof.
  apply (wp_run (init env) s (fun o s' =>
    hist s' = hist s ++ events_since (hist s) (hist s') /\
    tablet_vec s' = tablet_vec s /\
    init_frame (dw s) (dw s') /\
    match o with
    | Returned OLAP_SUCCESS => ready (dw s')
    | Returned st =>
        _is_init (dw s') = _is_init (dw s) /\
        (st = OLAP_ERR_TABLE_NOT_FOUND \/
         st = OLAP_ERR_ROWSET_GENERATE_ID_FAILED \/
         st = OLAP_ERR_ROWSET_WRITER_INIT \/
         (exists k l, In (EvPrepareTxn k l st) (events_since (hist s) (hist s'))) \/
         (exists p, In (EvCreateDirs p st) (events_since (hist s) (hist s'))))
    | Crashed => False
    end)).
  wp_go.
  all: hist_norm; unfold init_frame, ready; cbn [outcome_of].
  all: split; [reflexivity|]; split; [reflexivity|]; split; [cbn; auto|].
  all: try (cbn; split; [reflexivity|]; do 3 eexists; repeat split;
            try reflexivity; discriminate).
  all: try (cbn; split; [reflexivity|]; auto; fail).
  all: rewrite <- ?app_assoc in *; cbn [app] in *.
  all: match goal with
       | H : is_success ?st = false |- _ =>
           destruct st; cbn in H; try discriminate H;
           (split; [reflexivity|]);
           first [ do 3 right; left; do 2 eexists; cbn; eauto 20; fail
                 | do 4 right; eexists; cbn; eauto 20 ]
       end.
Qed.

(** * The push lock *)

Lemma same_tablet_refl k : same_tablet k k = true.
Proof. unfold same_tablet. now rewrite !Z.eqb_refl. Qed.

Lemma lock_after_app evs1 : forall held evs2,
  lock_after held (evs1 ++ evs2) =
  match lock_after held evs1 with
  | Some held' => lock_after held' evs2
  | None => None
  end.
Proof.
  induction evs1 as [|e evs1 IH]; intros held evs2; [reflexivity|].
  cbn [app lock_after].
  destruct e, held; try reflexivity; try apply IH.
  destruct (same_tablet _ _); [apply IH | reflexivity].
Qed.

Ltac locks_leaf :=
  eexists; split;
  [ rewrite <- ?app_assoc; first [ reflexivity | symmetry; apply app_nil_r ]
  | cbn [app lock_after]; rewrite ?same_tablet_refl; reflexivity ].

Lemma init_locks env s :
  wp (init env) s (fun _ s' =>
    exists evs, hist s' = hist s ++ evs /\ lock_after None evs = Some None).
Proof. wp_go; locks_leaf. Qed.

Lemma write_body_locks env tuple s :
  wp (write_body env tuple) s (fun _ s' =>
    exists evs, hist s' = hist s ++ evs /\ lock_after None evs = Some None).
Proof. wp_go; locks_leaf. Qed.

Lemma close_body_locks env s :
  wp (close_body env) s (fun _ s' =>
    exists evs, hist s' = hist s ++ evs /\ lock_after None evs = Some None).
Proof. wp_go; locks_leaf. Qed.

Lemma step_body_locks env op s :
  exists evs, hist (snd (step_body env op s)) = hist s ++ evs /\
              lock_after None evs = Some None.
Proof.
  destruct op; [apply (write_body_locks env tuple s) | apply (close_body_locks env s)].
Qed.

Lemma step_locks env op s :
  exists evs, hist (snd (run (step env op) s)) = hist s ++ evs /\
              lock_after None evs = Some None.
Proof.
  assert (E : snd (run (step env op) s) = snd (step env op s)).
  { unfold run. now destruct (step env op s). }
  rewrite E. clear E.
  pose proof (init_locks env s) as Hinit. unfold wp in Hinit.
  destruct (step_cases env op s) as [(_ & ->)|[(_ & s1 & Ei & ->)|(_ & st & s1 & Ei & _ & ->)]].
  - apply step_body_locks.
  - rewrite Ei in Hinit. cbn [snd] in Hinit. destruct Hinit as (evs1 & H1 & L1).
    destruct (step_body_locks env op s1) as (evs2 & H2 & L2).
    exists (evs1 ++ evs2). rewrite H2, H1, app_assoc. split; [reflexivity|].
    now rewrite lock_after_app, L1.
  - rewrite Ei in Hinit. exact Hinit.
Qed.

Lemma teardown_locks s :
  exists evs, hist (teardown s) = hist s ++ evs /\ lock_after None evs = Some None.
Proof.
  exists (events_since (hist s) (hist (teardown s))).
  assert (Hext : exists evs, hist (teardown s) = hist s ++ evs).
  { unfold teardown, destroy, _garbage_collection, delete_txn, add_unused_rowset,
      bind, field, modify, emit, ret. cbn.
    destruct (_delta_written_success (dw s)); cbn;
      [|destruct (_related_tablet (dw s)); cbn];
      rewrite release_all_spec; cbn; rewrite <- ?app_assoc; eexists; reflexivity. }
  destruct Hext as (evs & Hh). rewrite Hh, events_since_app. split; [reflexivity|].
  assert (Hrel : forall gs, lock_after None (map EvSegmentGroupRelease gs) = Some None).
  { induction gs; cbn; auto. }
  destruct (_delta_written_success (dw s)) eqn:Hflag.
  - pose proof (teardown_after_success s Hflag) as E.
    rewrite Hh, events_since_app in E. rewrite E. apply Hrel.
  - pose proof (teardown_unwinds s Hflag) as E.
    rewrite Hh, events_since_app in E. rewrite E.
    destruct (_related_tablet (dw s)); cbn; apply Hrel.
Qed.

(** X2: over the whole life of a writer, any sequence of [write] and [close]
    calls followed by the destructor, the tablet push lock is used in one
    way only.  It is taken when none is held and released by the call that
    took it, also when that call returns early; [prepare_txn], the read of the
    schema-change request and the creation of the pending directory happen
    under it; the id generator, the rowset writer, every flush, build and save
    of metadata, and the unwind of the destructor happen with no push lock
    held. *)
Theorem push_lock_discipline env req vec ops :
  lock_after None (hist (teardown (snd (run_ops env ops (opened req [] vec)))))
  = Some None.
Proof.
  assert (Hrun : forall ops s,
            exists evs, hist (snd (run_ops env ops s)) = hist s ++ evs /\
                        lock_after None evs = Some None).
  { clear ops. induction ops as [|op ops IH]; intros s.
    - exists []. cbn. now rewrite app_nil_r.
    - rewrite run_ops_cons.
      destruct (step_locks env op s) as (evs1 & H1 & L1).
      destruct (fst (run (step env op) s)).
      + destruct (IH (snd (run (step env op) s))) as (evs2 & H2 & L2).
        exists (evs1 ++ evs2). rewrite H2, H1, app_assoc. split; [reflexivity|].
        now rewrite lock_after_app, L1.
      + exists evs1. auto. }
  destruct (Hrun ops (opened req [] vec)) as (evs1 & H1 & L1).
  destruct (teardown_locks (snd (run_ops env ops (opened req [] vec))))
    as (evs2 & H2 & L2).
  rewrite H2, H1. cbn [opened hist app].
  now rewrite lock_after_app, L1.
Qed.

(** * What a call leaves as it was *)

(** [write] touches the row buffer and the rowset writer, nothing else. *)
Lemma write_body_frame env tuple s :
  wp (write_body env tuple) s (fun _ s' =>
    tablet_vec s' = tablet_vec s /\
    _delta_written_success (dw s') = _delta_written_success (dw s) /\
    _req (dw s') = _req (dw s) /\
    _cur_rowset (dw s') = _cur_rowset (dw s) /\
    _related_tablet (dw s') = _related_tablet (dw s) /\
    _segment_group_vec (dw s') = _segment_group_vec (dw s) /\
    _tablet (dw s') = _tablet (dw s) /\
    _col_ids (dw s') = _col_ids (dw s) /\
    exists evs, hist s' = hist s ++ evs /\ forallb is_flush evs = true).
Proof.
  wp_go; cbn; repeat split; auto.
  all: eexists; split;
    [ rewrite <- ?app_assoc; first [ reflexivity | symmetry; apply app_nil_r ]
    | reflexivity ].
Qed.

(** A [close] that does not return OLAP_SUCCESS leaves the caller's collection
    and the success flag as they were. *)
Lemma close_body_frame env s :
  wp (close_body env) s (fun r s' =>
    _req (dw s') = _req (dw s) /\
    _related_tablet (dw s') = _related_tablet (dw s) /\
    _segment_group_vec (dw s') = _segment_group_vec (dw s) /\
    _tablet (dw s') = _tablet (dw s) /\
    (outcome_of r <> Returned OLAP_SUCCESS ->
     tablet_vec s' = tablet_vec s /\
     _delta_written_success (dw s') = _delta_written_success (dw s))).
Proof.
  wp_go; cbn; repeat split; auto; congruence.
Qed.

(** X3: the caller's output collection and the success flag change only in a
    [close] that returns OLAP_SUCCESS.  A [write], whatever it returns, and a
    [close] that returns an error or does not return leave both as they
    were. *)
Theorem output_only_on_successful_close env op s :
  let r := run (step env op) s in
  (exists tuple, op = OpWrite tuple) \/ fst r <> Returned OLAP_SUCCESS ->
  tablet_vec (snd r) = tablet_vec s /\
  _delta_written_success (dw (snd r)) = _delta_written_success (dw s).
Proof.
  intros r Hcase.
  assert (Hbody : forall s1,
            tablet_vec s1 = tablet_vec s ->
            _delta_written_success (dw s1) = _delta_written_success (dw s) ->
            step env op s = step_body env op s1 ->
            tablet_vec (snd r) = tablet_vec s /\
            _delta_written_success (dw (snd r)) = _delta_written_success (dw s)).
  { intros s1 Hv Hf E. unfold r, run in *. rewrite E in *.
    destruct op as [tuple|]; cbn [step_body] in *.
    - pose proof (write_body_frame env tuple s1) as F. unfold wp in F.
      destruct (write_body env tuple s1) as [o s']. cbn [fst snd] in *.
      destruct F as (F1 & F2 & _). rewrite F1, F2. auto.
    - pose proof (close_body_frame env s1) as F. unfold wp in F.
      destruct (close_body env s1) as [o s']. cbn [fst snd] in *.
      destruct F as (_ & _ & _ & _ & F).
      destruct Hcase as [(tuple & Hop)|Hne]; [discriminate|].
      destruct (F Hne) as (F1 & F2). rewrite F1, F2. auto. }
  pose proof (init_spec env s) as Hinit. unfold wp, init_post in Hinit.
  destruct (step_cases env op s) as [(_ & E)|[(_ & s1 & Ei & E)|(_ & st & s1 & Ei & _ & E)]].
  - apply (Hbody s); auto.
  - rewrite Ei in Hinit. cbn [fst snd] in Hinit.
    destruct Hinit as (_ & Hv & (_ & Hf & _) & _). apply (Hbody s1); auto.
  - rewrite Ei in Hinit. cbn [fst snd] in Hinit.
    destruct Hinit as (_ & Hv & (_ & Hf & _) & _).
    unfold r, run. rewrite E. cbn. auto.
Qed.

Lemma output_only_on_successful_close_witness :
  fst (run (step Scenario.env_no_id OpClose) (opened (Scenario.request false) [] []))
  <> Returned OLAP_SUCCESS /\
  tablet_vec (snd (run (step Scenario.env_no_id OpClose)
                     (opened (Scenario.request false) [] []))) = [] /\
  _delta_written_success
    (dw (snd (run (step Scenario.env_no_id OpClose)
                (opened (Scenario.request false) [] [])))) = false.
Proof.
  assert (H : fst (run (step Scenario.env_no_id OpClose)
                     (opened (Scenario.request false) [] []))
              <> Returned OLAP_SUCCESS) by (vm_compute; discriminate).
  split; [exact H|].
  exact (output_only_on_successful_close Scenario.env_no_id OpClose
           (opened (Scenario.request false) [] []) (or_intror H)).
Defined.

(** * The destructor after a run *)

Lemma releases_are_no_unwind gs : filter is_unwind (map EvSegmentGroupRelease gs) = [].
Proof. induction gs; cbn; auto. Qed.

(** X4: a writer whose [close] returned OLAP_SUCCESS is destroyed without
    unwind: the destructor calls neither [delete_txn] nor
    [add_unused_rowset], whatever state the [close] started from. *)
Theorem no_unwind_after_successful_close env s :
  fst (run (close env) s) = Returned OLAP_SUCCESS ->
  let s' := snd (run (close env) s) in
  _delta_written_success (dw s') = true /\
  filter is_unwind (events_since (hist s') (hist (teardown s'))) = [].
Proof.
  intros Hok s'.
  assert (Hflag : _delta_written_success (dw s') = true).
  { revert Hok. unfold s'.
    apply (wp_run (close env) s (fun o s' =>
      o = Returned OLAP_SUCCESS -> _delta_written_success (dw s') = true)).
    eapply wp_conseq; [apply close_success|].
    intros r s1 H Hok. destruct (H Hok) as (t & _ & _ & Hflag & _). exact Hflag. }
  split; [exact Hflag|].
  rewrite (teardown_after_success s' Hflag). apply releases_are_no_unwind.
Qed.

Lemma no_unwind_after_successful_close_witness :
  fst (run (close Scenario.env_ok) (Scenario.after_one_write Scenario.env_ok))
  = Returned OLAP_SUCCESS /\
  filter is_unwind
    (events_since
       (hist (snd (run (close Scenario.env_ok) (Scenario.after_one_write Scenario.env_ok))))
       (hist (teardown (snd (run (close Scenario.env_ok)
                               (Scenario.after_one_write Scenario.env_ok)))))) = [].
Proof.
  assert (H : fst (run (close Scenario.env_ok) (Scenario.after_one_write Scenario.env_ok))
              = Returned OLAP_SUCCESS) by reflexivity.
  split; [exact H|].
  exact (proj2 (no_unwind_after_successful_close Scenario.env_ok
                  (Scenario.after_one_write Scenario.env_ok) H)).
Defined.

(** What a [write] leaves alone, through the prologue as well. *)
Lemma write_step_frame env tuple s :
  let s' := snd (run (write env tuple) s) in
  tablet_vec s' = tablet_vec s /\
  _delta_written_success (dw s') = _delta_written_success (dw s) /\
  _req (dw s') = _req (dw s) /\
  _cur_rowset (dw s') = _cur_rowset (dw s) /\
  _segment_group_vec (dw s') = _segment_group_vec (dw s) /\
  exists evs, hist s' = hist s ++ evs /\ filter is_save evs = [].
Proof.
  assert (Hquiet : forall evs, forallb init_event evs = true -> filter is_save evs = []).
  { induction evs as [|e evs IH]; [reflexivity|]. cbn. intros H.
    apply andb_true_iff in H as [He Hr]. rewrite (IH Hr).
    destruct e; cbn in *; auto; discriminate. }
  assert (Hflush : forall evs, forallb is_flush evs = true -> filter is_save evs = []).
  { induction evs as [|e evs IH]; [reflexivity|]. cbn. intros H.
    apply andb_true_iff in H as [He Hr]. rewrite (IH Hr).
    destruct e; cbn in *; auto; discriminate. }
  assert (Hbody : forall s1,
            let s' := snd (write_body env tuple s1) in
            tablet_vec s' = tablet_vec s1 /\
            _delta_written_success (dw s') = _delta_written_success (dw s1) /\
            _req (dw s') = _req (dw s1) /\
            _cur_rowset (dw s') = _cur_rowset (dw s1) /\
            _segment_group_vec (dw s') = _segment_group_vec (dw s1) /\
            exists evs, hist s' = hist s1 ++ evs /\ filter is_save evs = []).
  { intros s1. pose proof (write_body_frame env tuple s1) as F. unfold wp in F.
    destruct F as (F1 & F2 & F3 & F4 & _ & F6 & _ & _ & evs & Fh & Fe).
    repeat split; auto. exists evs. auto. }
  assert (E : snd (run (write env tuple) s) = snd (step env (OpWrite tuple) s)).
  { unfold run. cbn [step]. now destruct (write env tuple s). }
  cbv zeta. rewrite E. clear E.
  pose proof (init_spec env s) as Hinit. unfold wp, init_post, init_frame in Hinit.
  destruct (step_cases env (OpWrite tuple) s)
    as [(_ & ->)|[(_ & s1 & Ei & ->)|(_ & st & s1 & Ei & _ & ->)]].
  - apply Hbody.
  - rewrite Ei in Hinit. cbn [fst snd] in Hinit.
    destruct Hinit as ((evs1 & Hh & He) & Hv & (I1 & I2 & I3 & _ & I5) & _).
    destruct (Hbody s1) as (B1 & B2 & B3 & B4 & B5 & evs2 & Bh & Be).
    cbn [step_body] in *.
    rewrite B1, B2, B3, B4, B5, Hv, I1, I2, I3, I5. repeat split.
    exists ((EvInit :: evs1) ++ evs2). rewrite Bh, Hh, app_assoc. split; [reflexivity|].
    rewrite filter_app, Be. cbn. now rewrite (Hquiet evs1 He).
  - rewrite Ei in Hinit. cbn [fst snd] in Hinit.
    destruct Hinit as ((evs1 & Hh & He) & Hv & (I1 & I2 & I3 & _ & I5) & _).
    cbn [snd]. repeat split; auto.
    exists (EvInit :: evs1). split; [exact Hh|]. cbn. apply (Hquiet evs1 He).
Qed.

Lemma run_writes_cons env tuple tuples s :
  snd (run_ops env (map OpWrite (tuple :: tuples)) s) =
  match fst (run (write env tuple) s) with
  | Crashed => snd (run (write env tuple) s)
  | Returned _ => snd (run_ops env (map OpWrite tuples) (snd (run (write env tuple) s)))
  end.
Proof. cbn [map]. rewrite run_ops_cons. reflexivity. Qed.

(** X5: a writer that is dropped after any number of [write] calls, without a
    [close], has saved no rowset metadata and filled nothing into the caller's
    collection, and its destructor unwinds: it deletes the transaction of the
    request, hands the null current rowset to the storage engine, and does
    the same for the related tablet when the pointer to it is set. *)
Theorem abandoned_writes_are_unwound env req vec tuples :
  let s := snd (run_ops env (map OpWrite tuples) (opened req [] vec)) in
  _delta_written_success (dw s) = false /\
  tablet_vec s = vec /\
  filter is_save (hist s) = [] /\
  events_since (hist s) (hist (teardown s))
  = [EvDeleteTxn (req_key req); EvAddUnusedRowset None]
    ++ match _related_tablet (dw s) with
       | Some related =>
           [EvDeleteTxn (related_key req (tablet_id related) (schema_hash related));
            EvAddUnusedRowset (_related_rowset (dw s))]
       | None => []
       end.
Proof.
  assert (Hrun : forall tuples s0,
            let s := snd (run_ops env (map OpWrite tuples) s0) in
            tablet_vec s = tablet_vec s0 /\
            _delta_written_success (dw s) = _delta_written_success (dw s0) /\
            _req (dw s) = _req (dw s0) /\
            _cur_rowset (dw s) = _cur_rowset (dw s0) /\
            _segment_group_vec (dw s) = _segment_group_vec (dw s0) /\
            (filter is_save (hist s0) = [] -> filter is_save (hist s) = [])).
  { clear tuples. induction tuples as [|tuple tuples IH]; intros s0.
    - cbn. auto 10.
    - cbv zeta. rewrite run_writes_cons.
      destruct (write_step_frame env tuple s0) as (W1 & W2 & W3 & W4 & W5 & evs & Wh & We).
      assert (Hsave : filter is_save (hist s0) = [] ->
                      filter is_save (hist (snd (run (write env tuple) s0))) = []).
      { intros H0. now rewrite Wh, filter_app, H0, We. }
      destruct (fst (run (write env tuple) s0)).
      + destruct (IH (snd (run (write env tuple) s0))) as (R1 & R2 & R3 & R4 & R5 & R6).
        rewrite R1, R2, R3, R4, R5, W1, W2, W3, W4, W5. auto 10.
      + auto 10. }
  intros s. destruct (Hrun tuples (opened req [] vec)) as (R1 & R2 & R3 & R4 & R5 & R6).
  fold s in R1, R2, R3, R4, R5, R6. cbn in R1, R2, R3, R4, R5, R6.
  repeat split; auto.
  rewrite (teardown_unwinds s R2), R3, R4, R5. cbn [map].
  now rewrite app_nil_r.
Qed.

(** * Null pointers *)

Lemma ready_usable w : ready w -> usable w.
Proof.
  intros (_ & t & mt & rw & Ht & Hmt & _ & Hrw & _ & Hctx) _.
  exists t, mt, rw. auto.
Qed.

Ltac use_usable H :=
  destruct H as (t & mt & rw & Ht & Hmt & Hrw & Hctx); [assumption|].

(** On a usable, initialised writer the body of [write] follows no null
    pointer, and leaves the writer usable. *)
Lemma write_body_safe env tuple s :
  usable (dw s) -> _is_init (dw s) = true ->
  wp (write_body env tuple) s (fun r s' =>
    r <> inr Segfault /\ usable (dw s') /\ _is_init (dw s') = true).
Proof.
  intros Hu Hi. use_usable Hu.
  wp_go; cbn in *; try congruence.
  all: split; [discriminate|]; split; [|assumption].
  all: intros _; do 3 eexists; repeat split; try eassumption; try reflexivity.
  all: cbn; congruence.
Qed.

(** The body of [close] follows a null pointer in two places only: the rowset
    that [build] returned, and [_related_rowset] when a related tablet is
    set. *)
Lemma close_body_safe env s :
  usable (dw s) -> _is_init (dw s) = true ->
  wp (close_body env) s (fun r s' =>
    usable (dw s') /\ _is_init (dw s') = true /\
    (r = inr Segfault ->
     _related_tablet (dw s) <> None \/
     exists h rw, rw_context rw <> None /\ env_build_ok env h rw = false)).
Proof.
  intros Hu Hi. use_usable Hu.
  unfold close_body, RowsetWriter_build. wp_go; cbn in *; try congruence.
  all: split; [intros _; do 3 eexists; repeat split; try eassumption;
               try reflexivity; cbn; congruence|].
  all: split; [assumption|]; try (intros; discriminate).
  all: intros _.
  all: try (left; congruence).
  right.
  repeat match goal with
         | H : Some _ = Some _ |- _ => injection H as H; subst
         end.
  match goal with
  | H : match rw_context ?w with _ => _ end = None |- _ =>
      cbn in H; destruct (rw_context rw) eqn:Ec; [|congruence];
      match type of H with
      | (if ?b then _ else _) = None =>
          destruct b eqn:Eb; [discriminate|];
          do 2 eexists; split; [|exact Eb]; cbn; congruence
      end
  end.
Qed.

Lemma step_safe env op s :
  usable (dw s) ->
  let r := run (step env op) s in
  usable (dw (snd r)) /\
  (fst r = Crashed ->
   op = OpClose /\
   (_related_tablet (dw (snd r)) <> None \/
    exists h rw, rw_context rw <> None /\ env_build_ok env h rw = false)).
Proof.
  intros Hu.
  assert (Hbody : forall s1, usable (dw s1) -> _is_init (dw s1) = true ->
            usable (dw (snd (step_body env op s1))) /\
            (outcome_of (fst (step_body env op s1)) = Crashed ->
             op = OpClose /\
             (_related_tablet (dw (snd (step_body env op s1))) <> None \/
              exists h rw, rw_context rw <> None /\ env_build_ok env h rw = false))).
  { intros s1 Hu1 Hi1. destruct op as [tuple|]; cbn [step_body].
    - pose proof (write_body_safe env tuple s1 Hu1 Hi1) as F. unfold wp in F.
      destruct F as (Hns & Hu' & _). split; [exact Hu'|].
      intros Hc. exfalso. apply Hns.
      destruct (fst (write_body env tuple s1)) as [st|[st|]];
        [discriminate Hc | discriminate Hc | reflexivity].
    - pose proof (close_body_safe env s1 Hu1 Hi1) as F. unfold wp in F.
      pose proof (close_body_frame env s1) as G. unfold wp in G.
      destruct F as (Hu' & _ & Hcrash). destruct G as (_ & Grel & _).
      split; [exact Hu'|]. intros Hc. split; [reflexivity|].
      rewrite Grel. apply Hcrash.
      destruct (fst (close_body env s1)) as [st|[st|]];
        [discriminate Hc | discriminate Hc | reflexivity]. }
  assert (E : run (step env op) s
              = (outcome_of (fst (step env op s)), snd (step env op s))).
  { unfold run. now destruct (step env op s). }
  cbv zeta. rewrite E. cbn [fst snd]. clear E.
  pose proof (init_spec env s) as Hinit. unfold wp, init_post in Hinit.
  destruct (step_cases env op s)
    as [(Hi & ->)|[(_ & s1 & Ei & ->)|(Hi & st & s1 & Ei & _ & ->)]].
  - apply Hbody; assumption.
  - rewrite Ei in Hinit. cbn [fst snd] in Hinit.
    destruct Hinit as (_ & _ & _ & _ & Hready).
    apply Hbody; [apply ready_usable, Hready | apply Hready].
  - rewrite Ei in Hinit. cbn [fst snd] in Hinit.
    destruct Hinit as (_ & _ & _ & _ & Hsame).
    cbn [fst snd outcome_of]. split; [|discriminate].
    intros Hi1. rewrite Hsame, Hi in Hi1. discriminate.
Qed.

Lemma run_ops_cons_fst env op ops s :
  fst (run_ops env (op :: ops) s) =
  match fst (run (step env op) s) with
  | Crashed => [Crashed]
  | Returned st => Returned st :: fst (run_ops env ops (snd (run (step env op) s)))
  end.
Proof.
  cbn. destruct (run (step env op) s) as [[st|] s1]; cbn; auto.
  now destruct (run_ops env ops s1).
Qed.

(** * A save that fails *)

Lemma init_events_no_failed_save evs :
  forallb init_event evs = true -> existsb is_failed_save evs = false.
Proof.
  induction evs as [|e evs IH]; [reflexivity|]. cbn. intros H.
  apply andb_true_iff in H as [He Hr]. rewrite (IH Hr).
  destruct e; cbn in *; auto; discriminate.
Qed.

Lemma close_body_failed_save env s :
  wp (close_body env) s (fun r s' =>
    exists evs, hist s' = hist s ++ evs /\
      (existsb is_failed_save evs = true ->
       outcome_of r = Returned OLAP_ERR_ROWSET_SAVE_FAILED /\
       exists rowset, _cur_rowset (dw s') = Some rowset /\ In (EvBuild (Some rowset)) evs)).
Proof.
  wp_go.
  all: eexists; split;
    [ rewrite <- ?app_assoc; first [ reflexivity | symmetry; apply app_nil_r ] |].
  all: rewrite <- ?app_assoc in *; cbn [app] in *.
  all: cbn [app existsb is_failed_save orb]; intros Hf.
  all: repeat match goal with
              | H : negb (is_success ?st) = false |- _ =>
                  rewrite H in Hf; cbn [orb] in Hf
              | H : is_success ?st = true |- _ =>
                  rewrite H in Hf; cbn [orb negb] in Hf
              end.
  all: try discriminate Hf.
  all: cbn; split; [reflexivity|]; eexists; split; [reflexivity|]; auto 20.
Qed.

(** X7: when a save of rowset metadata fails inside [close] on a writer whose
    success flag is not set, [close] returns OLAP_ERR_ROWSET_SAVE_FAILED whatever
    status the meta store gave, the rowset that was built stays in
    [_cur_rowset], and the destructor then deletes the transaction of the
    request and hands that rowset to the storage engine's unused-rowset
    list. *)
Theorem failed_save_is_unwound env s :
  _delta_written_success (dw s) = false ->
  let r := run (close env) s in
  existsb is_failed_save (events_since (hist s) (hist (snd r))) = true ->
  fst r = Returned OLAP_ERR_ROWSET_SAVE_FAILED /\
  exists rowset,
    _cur_rowset (dw (snd r)) = Some rowset /\
    In (EvBuild (Some rowset)) (events_since (hist s) (hist (snd r))) /\
    In (EvDeleteTxn (req_key (_req (dw s))))
       (events_since (hist (snd r)) (hist (teardown (snd r)))) /\
    In (EvAddUnusedRowset (Some rowset))
       (events_since (hist (snd r)) (hist (teardown (snd r)))).
Proof.
  intros Hflag r.
  assert (Hbody : forall s1 pre,
            hist s1 = hist s ++ pre -> existsb is_failed_save pre = false ->
            _delta_written_success (dw s1) = false -> _req (dw s1) = _req (dw s) ->
            step env OpClose s = close_body env s1 ->
            existsb is_failed_save (events_since (hist s) (hist (snd r))) = true ->
            fst r = Returned OLAP_ERR_ROWSET_SAVE_FAILED /\
            exists rowset,
              _cur_rowset (dw (snd r)) = Some rowset /\
              In (EvBuild (Some rowset)) (events_since (hist s) (hist (snd r))) /\
              In (EvDeleteTxn (req_key (_req (dw s))))
                 (events_since (hist (snd r)) (hist (teardown (snd r)))) /\
              In (EvAddUnusedRowset (Some rowset))
                 (events_since (hist (snd r)) (hist (teardown (snd r))))).
  { intros s1 pre Hpre Hquiet Hf1 Hreq E. unfold r, run. cbn [step] in E. rewrite E.
    pose proof (close_body_failed_save env s1) as F. unfold wp in F.
    pose proof (close_body_frame env s1) as G. unfold wp in G.
    destruct (close_body env s1) as [o s']. cbn [fst snd] in *.
    destruct F as (evs & Hh & F). destruct G as (Greq & _ & _ & _ & G).
    assert (Hev : events_since (hist s) (hist s') = pre ++ evs).
    { now rewrite Hh, Hpre, <- app_assoc, events_since_app. }
    rewrite Hev, existsb_app, Hquiet. cbn [orb].
    intros Hfail. destruct (F Hfail) as (Ho & rowset & Hcur & Hin).
    split; [exact Ho|]. exists rowset. split; [exact Hcur|]. split.
    { apply in_or_app. now right. }
    assert (Hne : outcome_of o <> Returned OLAP_SUCCESS) by (rewrite Ho; discriminate).
    assert (Hflag' : _delta_written_success (dw s') = false).
    { destruct (G Hne) as (_ & G2). now rewrite G2. }
    cbn [fst snd]. rewrite (teardown_unwinds s' Hflag'), Greq, Hreq, Hcur.
    split; [now left | right; now left]. }
  pose proof (init_spec env s) as Hinit. unfold wp, init_post, init_frame in Hinit.
  destruct (step_cases env OpClose s)
    as [(_ & E)|[(_ & s1 & Ei & E)|(_ & st & s1 & Ei & _ & E)]].
  - apply (Hbody s []); auto. now rewrite app_nil_r.
  - rewrite Ei in Hinit. cbn [fst snd] in Hinit.
    destruct Hinit as ((evs & Hh & He) & _ & (I1 & I2 & _) & _).
    apply (Hbody s1 (EvInit :: evs)); auto.
    + cbn. now apply init_events_no_failed_save.
    + now rewrite I2.
  - rewrite Ei in Hinit. cbn [fst snd] in Hinit.
    destruct Hinit as ((evs & Hh & He) & _).
    unfold r, run. cbn [step] in E. rewrite E. cbn [fst snd].
    rewrite Hh, events_since_app. cbn.
    rewrite (init_events_no_failed_save evs He). discriminate.
Qed.

Lemma failed_save_is_unwound_witness :
  (_delta_written_success (dw (Scenario.after_one_write env_save_fails)) = false /\
   existsb is_failed_save
     (events_since (hist (Scenario.after_one_write env_save_fails))
        (hist (snd (run (close env_save_fails)
                      (Scenario.after_one_write env_save_fails))))) = true) /\
  fst (run (close env_save_fails) (Scenario.after_one_write env_save_fails))
  = Returned OLAP_ERR_ROWSET_SAVE_FAILED.
Proof.
  assert (H1 : _delta_written_success (dw (Scenario.after_one_write env_save_fails))
               = false) by reflexivity.
  assert (H2 : existsb is_failed_save
                 (events_since (hist (Scenario.after_one_write env_save_fails))
                    (hist (snd (run (close env_save_fails)
                                  (Scenario.after_one_write env_save_fails))))) = true)
    by reflexivity.
  split; [auto|].
  exact (proj1 (failed_save_is_unwound env_save_fails
                  (Scenario.after_one_write env_save_fails) H1 H2)).
Defined.

(** * The column index mapping, in general *)

Lemma matching_slots_In column_name sl : forall k i,
  In i (matching_slots column_name sl k) <->
  (k <= i)%nat /\ exists slot, nth_error sl (i - k) = Some slot /\
                               col_name slot = column_name.
Proof.
  induction sl as [|slot sl IH]; intros k i; cbn [matching_slots].
  - split; [intros [] | intros (_ & slot & H & _)].
    now destruct (i - k)%nat.
  - assert (Hrest : In i (matching_slots column_name sl (S k)) <->
              (S k <= i)%nat /\
              exists slot', nth_error (slot :: sl) (i - k) = Some slot' /\
                            col_name slot' = column_name).
    { rewrite IH. split; intros (Hle & slot' & Hn & Hc); (split; [lia|]);
        exists slot'; (split; [|exact Hc]).
      - replace (i - k)%nat with (S (i - S k)) by lia. exact Hn.
      - replace (i - k)%nat with (S (i - S k)) in Hn by lia. exact Hn. }
    destruct (String.eqb_spec (col_name slot) column_name) as [E|E].
    + cbn [In]. rewrite Hrest. split.
      * intros [<-|(Hle & H)]; [|split; [lia | exact H]].
        split; [lia|]. exists slot. rewrite Nat.sub_diag. auto.
      * intros (Hle & slot' & Hn & Hc).
        destruct (Nat.eq_dec k i) as [->|Hne]; [now left|right].
        split; [lia|]. exists slot'. auto.
    + rewrite Hrest. split.
      * intros (Hle & H). split; [lia | exact H].
      * intros (Hle & slot' & Hn & Hc). split; [|exists slot'; auto].
        destruct (Nat.eq_dec k i) as [->|Hne]; [|lia].
        rewrite Nat.sub_diag in Hn. cbn in Hn. injection Hn as <-. contradiction.
Qed.


Lemma matching_slots_NoDup column_name sl : forall k,
  NoDup (matching_slots column_name sl k).
Proof.
  induction sl as [|slot sl IH]; intros k; cbn [matching_slots]; [constructor|].
  destruct (String.eqb (col_name slot) column_name); [|apply IH].
  constructor; [|apply IH].
  intros Hin. apply matching_slots_In in Hin as (Hle & _). lia.
Qed.

Lemma matching_slots_single column_name sl :
  NoDup (map col_name sl) -> In column_name (map col_name sl) ->
  forall k, List.length (matching_slots column_name sl k) = 1%nat.
Proof.
  induction sl as [|slot sl IH]; intros Hnd Hin k; [destruct Hin|].
  cbn in Hnd. apply NoDup_cons_iff in Hnd as [Hfresh Hnd].
  cbn [matching_slots].
  destruct (String.eqb_spec (col_name slot) column_name) as [E|E].
  - rewrite matching_slots_absent by (rewrite <- E; exact Hfresh). reflexivity.
  - destruct Hin as [Hin|Hin]; [contradiction|]. now apply IH.
Qed.

(** X9: when the slots have distinct names, the columns have distinct names,
    every column is named by a slot and there are as many columns as slots,
    the column index mapping is a permutation of the slot positions: every
    field of the tuple goes to exactly one cell of the record. *)
Theorem col_ids_permutation schema sl :
  NoDup (map col_name sl) ->
  NoDup (map name (columns schema)) ->
  (forall column, In column (columns schema) -> In (name column) (map col_name sl)) ->
  num_columns schema = List.length sl ->
  Permutation (build_col_ids schema sl) (seq 0 (List.length sl)).
Proof.
  intros Hslots Hcols Hall Hlen. unfold num_columns in Hlen.
  apply NoDup_Permutation_bis.
  - unfold build_col_ids. clear Hlen.
    induction (columns schema) as [|column cols IH]; cbn [flat_map]; [constructor|].
    cbn in Hcols. apply NoDup_cons_iff in Hcols as [Hfresh Hcols].
    apply NoDup_app.
    + apply matching_slots_NoDup.
    + apply IH; auto. intros c Hc. apply Hall. now right.
    + intros i Hi1 Hi2.
      apply matching_slots_In in Hi1 as (_ & slot1 & Hn1 & Hs1).
      apply in_flat_map in Hi2 as (c & Hc & Hi2).
      apply matching_slots_In in Hi2 as (_ & slot2 & Hn2 & Hs2).
      rewrite Hn1 in Hn2. injection Hn2 as <-.
      apply Hfresh. rewrite <- Hs1, Hs2. now apply in_map.
  - rewrite length_seq. unfold build_col_ids. rewrite <- Hlen. clear Hlen Hcols.
    induction (columns schema) as [|column cols IH]; cbn [flat_map]; [auto|].
    rewrite length_app, (matching_slots_single (name column) sl Hslots)
      by (apply Hall; now left).
    cbn. apply le_n_S, IH. intros c Hc. apply Hall. now right.
  - intros i Hi. unfold build_col_ids in Hi.
    apply in_flat_map in Hi as (c & _ & Hi).
    apply matching_slots_In in Hi as (_ & slot & Hn & _).
    rewrite Nat.sub_0_r in Hn. apply in_seq. split; [lia|]. cbn.
    apply nth_error_Some. congruence.
Qed.

Lemma col_ids_permutation_witness :
  (NoDup (map col_name (slots Scenario.desc_cab)) /\
   NoDup (map name (columns Scenario.schema_abc)) /\
   (forall column, In column (columns Scenario.schema_abc) ->
                   In (name column) (map col_name (slots Scenario.desc_cab))) /\
   num_columns Scenario.schema_abc = List.length (slots Scenario.desc_cab)) /\
  Permutation (build_col_ids Scenario.schema_abc (slots Scenario.desc_cab)) [0; 1; 2]%nat.
Proof.
  assert (H1 : NoDup (map col_name (slots Scenario.desc_cab))).
  { cbn. repeat constructor; cbn; intuition discriminate. }
  assert (H2 : NoDup (map name (columns Scenario.schema_abc))).
  { cbn. repeat constructor; cbn; intuition discriminate. }
  assert (H3 : forall column, In column (columns Scenario.schema_abc) ->
                 In (name column) (map col_name (slots Scenario.desc_cab))).
  { cbn. intros column [<-|[<-|[<-|[]]]]; cbn; auto. }
  assert (H4 : num_columns Scenario.schema_abc = List.length (slots Scenario.desc_cab))
    by reflexivity.
  split; [auto|].
  exact (col_ids_permutation Scenario.schema_abc (slots Scenario.desc_cab) H1 H2 H3 H4).
Defined.

Lemma col_ids_route_by_name_witness :
  (NoDup (map col_name (slots Scenario.desc_cab)) /\
   (forall column, In column (columns Scenario.schema_abc) ->
                   In (name column) (map col_name (slots Scenario.desc_cab))) /\
   List.length [30; 10; 20] = List.length (slots Scenario.desc_cab)) /\
  assemble_row (build_col_ids Scenario.schema_abc (slots Scenario.desc_cab)) [30; 10; 20]
  = map (fun column => field_value (slots Scenario.desc_cab) [30; 10; 20] (name column))
      (columns Scenario.schema_abc).
Proof.
  assert (H1 : NoDup (map col_name (slots Scenario.desc_cab))).
  { cbn. repeat constructor; cbn; intuition discriminate. }
  assert (H3 : forall column, In column (columns Scenario.schema_abc) ->
                 In (name column) (map col_name (slots Scenario.desc_cab))).
  { cbn. intros column [<-|[<-|[<-|[]]]]; cbn; auto. }
  assert (H4 : List.length [30; 10; 20] = List.length (slots Scenario.desc_cab))
    by reflexivity.
  split; [auto|].
  exact (col_ids_route_by_name Scenario.schema_abc (slots Scenario.desc_cab)
           [30; 10; 20] H1 H3 H4).
Defined.

(** * The transactions [init] prepares *)


(** * Witnesses of two earlier lemmas *)

Lemma init_stops_at_primary_prepare_failure_witness :
  (env_get_tablet env_prepare_fails [EvInit] 10 77 = Some (Scenario.tablet10 None) /\
   is_success (OLAP_ERR_OTHER 9) = false) /\
  fst (run (init env_prepare_fails) (opened (Scenario.request false) [] []))
  = Returned (OLAP_ERR_OTHER 9) /\
  hist (snd (run (init env_prepare_fails) (opened (Scenario.request false) [] [])))
  = [EvInit; EvGetTablet 10 77; EvPushLock 10 77;
     EvPrepareTxn Scenario.key10 (3, 4) (OLAP_ERR_OTHER 9); EvPushUnlock 10 77].
Proof.
  assert (H1 : env_get_tablet env_prepare_fails [EvInit] 10 77
               = Some (Scenario.tablet10 None)) by reflexivity.
  assert (H2 : is_success (OLAP_ERR_OTHER 9) = false) by reflexivity.
  split; [auto|].
  destruct (init_stops_at_primary_prepare_failure env_prepare_fails
              (opened (Scenario.request false) [] []) (Scenario.tablet10 None) H1 H2)
    as (Hret & Hhist & _).
  split; [exact Hret | exact Hhist].
Defined.

Lemma close_never_succeeds_with_related_witness :
  fst (run (close Scenario.env_ok)
         (snd (run_ops Scenario.env_ok [OpWrite [1; 2; 3]]
                 (opened (Scenario.request false) [] []))))
  = Returned OLAP_SUCCESS /\
  _related_tablet
    (dw (snd (run (close Scenario.env_ok)
                (snd (run_ops Scenario.env_ok [OpWrite [1; 2; 3]]
                        (opened (Scenario.request false) [] [])))))) = None.
Proof.
  assert (H : fst (run (close Scenario.env_ok)
                     (snd (run_ops Scenario.env_ok [OpWrite [1; 2; 3]]
                             (opened (Scenario.request false) [] []))))
              = Returned OLAP_SUCCESS) by reflexivity.
  split; [exact H|].
  exact (close_never_succeeds_with_related Scenario.env_ok (Scenario.request false) []
           [OpWrite [1; 2; 3]] H).
Defined.

(** * The rows of a load *)

Ltac run_succeeding Hget Hprep Hdirs Hid Hinit Hflush Hclose Hbuild Hsave :=
  repeat (dw_fields;
          rewrite ?Hget, ?Hprep, ?Hdirs, ?Hinit, ?Hflush, ?Hclose, ?Hbuild, ?Hsave;
          dw_fields; cbv beta iota;
          lazymatch goal with
          | |- wp (let (_, _) := env_get_next_id ?env ?h ?d in _) _ _ =>
              let E := fresh "E" in
              pose proof (Hid h d) as E;
              destruct (env_get_next_id env h d) as [status rid];
              cbn in E; subst status
          | |- _ => wp_step
          end).

(** With collaborators that succeed, [init] on a fresh writer succeeds and
    leaves a writer that carries no tuple yet. *)
Lemma init_carries env req t vec :
  collaborators_succeed env req t ->
  wp (init env) (opened req [] vec) (fun r s' =>
    r = inl OLAP_SUCCESS /\
    carries t (build_col_ids (tablet_schema t) (slots (req_tuple_desc req))) []
      (dw s')).
Proof.
  intros (Hget & Hprep & Hdirs & Hid & Hinit & Hflush & Hclose & Hbuild & Hsave).
  wp_unfold.
  run_succeeding Hget Hprep Hdirs Hid Hinit Hflush Hclose Hbuild Hsave.
  all: dw_fields; unfold carries; cbn.
  all: split; [reflexivity|]; repeat split.
  all: do 2 eexists; repeat split; try reflexivity; discriminate.
Qed.

Lemma write_carries env t c done tuple s :
  keys_type t = DUP_KEYS ->
  (forall h m, env_flush env h m = OLAP_SUCCESS) ->
  carries t c done (dw s) ->
  fst (run (write env tuple) s) = Returned OLAP_SUCCESS /\
  carries t c (done ++ [tuple]) (dw (snd (run (write env tuple) s))).
Proof.
  intros Hdup Hflush (Hi & Ht & Hc & mt & rw & Hmt & Hmc & Hmk & Hrw & Hctx & Hrows).
  rewrite (write_initialised env s tuple t mt rw Hi Ht Hmt Hrw).
  assert (Hnew : mt_rows (MemTable_insert env mt tuple)
                 = (mt_rows mt ++ [assemble_row c tuple])%list).
  { unfold MemTable_insert. cbn. now rewrite Hmk, Hdup, Hmc. }
  assert (Hall : (rw_rows rw ++ mt_rows (MemTable_insert env mt tuple))%list
                 = map (assemble_row c) (done ++ [tuple])).
  { now rewrite Hnew, app_assoc, Hrows, map_app. }
  rewrite Hflush. cbn [is_success].
  destruct (threshold env <=? memory_usage env (MemTable_insert env mt tuple));
    cbn [fst snd dw]; (split; [reflexivity|]); unfold carries; cbn.
  - repeat split; auto. do 2 eexists. repeat split; try reflexivity; auto.
    cbn. now rewrite app_nil_r.
  - repeat split; auto. exists (MemTable_insert env mt tuple), rw.
    repeat split; auto.
Qed.

Lemma close_body_builds env s mt rw :
  _mem_table (dw s) = Some mt ->
  _rowset_writer (dw s) = Some rw ->
  rw_context rw <> None ->
  (forall h m, env_close env h m = OLAP_SUCCESS) ->
  (forall h w, env_build_ok env h w = true) ->
  wp (close_body env) s (fun _ s' =>
    exists rowset,
      _cur_rowset (dw s') = Some rowset /\
      rowset_rows rowset = (rw_rows rw ++ mt_rows mt)%list).
Proof.
  intros Hmt Hrw Hctx Hclose Hbuild.
  destruct (rw_context rw) as [ctx|] eqn:Ec; [clear Hctx | congruence].
  unfold close_body, RowsetWriter_build. wp_unfold.
  repeat (dw_fields; rewrite ?Hmt, ?Hrw, ?Hclose, ?Hbuild; dw_fields;
          rewrite ?Ec, ?Hbuild; cbv beta iota; wp_step).
  all: dw_fields; eexists; split; reflexivity.
Qed.

Lemma step_initialised env op s :
  _is_init (dw s) = true -> step env op s = step_body env op s.
Proof.
  intros Hi.
  destruct (step_cases env op s) as [(_ & E)|[(Hf & _)|(Hf & _)]];
    [exact E | congruence | congruence].
Qed.

Lemma close_carries env t c done s :
  (forall h m, env_close env h m = OLAP_SUCCESS) ->
  (forall h w, env_build_ok env h w = true) ->
  carries t c done (dw s) ->
  exists rowset,
    _cur_rowset (dw (snd (run (close env) s))) = Some rowset /\
    rowset_rows rowset = map (assemble_row c) done.
Proof.
  intros Hclose Hbuild (Hi & Ht & Hc & mt & rw & Hmt & Hmc & Hmk & Hrw & Hctx & Hrows).
  pose proof (close_body_builds env s mt rw Hmt Hrw Hctx Hclose Hbuild) as F.
  unfold wp in F. rewrite Hrows in F.
  unfold run. change (close env) with (step env OpClose).
  rewrite (step_initialised env OpClose s Hi). cbn [step_body].
  destruct (close_body env s) as [o s']. exact F.
Qed.

Lemma run_carries env t c :
  keys_type t = DUP_KEYS ->
  (forall h m, env_flush env h m = OLAP_SUCCESS) ->
  (forall h m, env_close env h m = OLAP_SUCCESS) ->
  (forall h w, env_build_ok env h w = true) ->
  forall tuples done s,
    carries t c done (dw s) ->
    exists rowset,
      _cur_rowset (dw (snd (run_ops env (map OpWrite tuples ++ [OpClose]) s)))
      = Some rowset /\
      rowset_rows rowset = map (assemble_row c) (done ++ tuples).
Proof.
  intros Hdup Hflush Hclose Hbuild.
  induction tuples as [|tuple tuples IH]; intros done s Hcar.
  - cbn [map app]. rewrite run_ops_cons, app_nil_r. cbn [step].
    assert (E : match fst (run (close env) s) with
                | Returned _ => snd (run_ops env [] (snd (run (close env) s)))
                | Crashed => snd (run (close env) s)
                end = snd (run (close env) s))
      by now destruct (fst (run (close env) s)).
    rewrite E. now apply (close_carries env t c done s).
  - cbn [map app]. rewrite run_ops_cons. cbn [step].
    destruct (write_carries env t c done tuple s Hdup Hflush Hcar) as (Hok & Hcar').
    rewrite Hok.
    destruct (IH (done ++ [tuple]) _ Hcar') as (rowset & Hcur & Hr).
    exists rowset. split; [exact Hcur|]. now rewrite Hr, <- app_assoc.
Qed.

(** X11: with the duplicate key model and collaborators that succeed, the
    rowset that [close] builds after the writes of [tuples] holds exactly one
    record per tuple, in the order of the writes, each assembled through the
    column index mapping of [init]: however many times the buffer was rotated
    on the way, no row is lost, repeated or moved. *)
Theorem rows_reach_the_rowset env req t vec tuples :
  collaborators_succeed env req t ->
  keys_type t = DUP_KEYS ->
  let col_ids := build_col_ids (tablet_schema t) (slots (req_tuple_desc req)) in
  let s := snd (run_ops env (map OpWrite tuples ++ [OpClose]) (opened req [] vec)) in
  exists rowset,
    _cur_rowset (dw s) = Some rowset /\
    rowset_rows rowset = map (assemble_row col_ids) tuples.
Proof.
  intros Hok Hdup col_ids.
  pose proof (init_carries env req t vec Hok) as Hinit. unfold wp in Hinit.
  destruct Hok as (_ & _ & _ & _ & _ & Hflush & Hclose & Hbuild & _).
  destruct (init env (opened req [] vec)) as [r0 s1] eqn:Ei. cbn [fst snd] in Hinit.
  destruct Hinit as (-> & Hcar).
  assert (Hfirst : forall op ops,
            run_ops env (op :: ops) (opened req [] vec) = run_ops env (op :: ops) s1).
  { intros op ops. cbn [run_ops]. unfold run.
    destruct (step_cases env op (opened req [] vec))
      as [(Hi & _)|[(_ & s1' & Ei' & E)|(_ & st & s1' & Ei' & _)]];
      [discriminate Hi | | congruence].
    rewrite Ei in Ei'. injection Ei' as <-.
    rewrite E. rewrite (step_initialised env op s1) by apply Hcar. reflexivity. }
  assert (Hrun : run_ops env (map OpWrite tuples ++ [OpClose]) (opened req [] vec)
                 = run_ops env (map OpWrite tuples ++ [OpClose]) s1).
  { destruct tuples; cbn [map app]; apply Hfirst. }
  cbv zeta. rewrite Hrun.
  apply (run_carries env t col_ids Hdup Hflush Hclose Hbuild tuples [] s1 Hcar).
Qed.

Lemma rows_reach_the_rowset_witness :
  (collaborators_succeed Scenario.env_ok (Scenario.request false) (Scenario.tablet10 None) /\
   keys_type (Scenario.tablet10 None) = DUP_KEYS) /\
  exists rowset,
    _cur_rowset
      (dw (snd (run_ops Scenario.env_ok
                  (map OpWrite [[1; 2; 3]; [4; 5; 6]; [7; 8; 9]] ++ [OpClose])
                  (opened (Scenario.request false) [] [])))) = Some rowset /\
    rowset_rows rowset
    = [[Some 2; Some 3; Some 1]; [Some 5; Some 6; Some 4]; [Some 8; Some 9; Some 7]].
Proof.
  assert (H1 : collaborators_succeed Scenario.env_ok (Scenario.request false)
                 (Scenario.tablet10 None))
    by (repeat split; intros; reflexivity).
  assert (H2 : keys_type (Scenario.tablet10 None) = DUP_KEYS) by reflexivity.
  split; [auto|].
  exact (rows_reach_the_rowset Scenario.env_ok (Scenario.request false)
           (Scenario.tablet10 None) [] [[1; 2; 3]; [4; 5; 6]; [7; 8; 9]] H1 H2).
Defined.

(** * The mapping is built once *)

Lemma init_col_ids env s :
  wp (init env) s (fun r s' =>
    _req (dw s') = _req (dw s) /\
    match r with
    | inl _ =>
        exists t, _tablet (dw s') = Some t /\
          _col_ids (dw s') =
            (_col_ids (dw s)
               ++ build_col_ids (tablet_schema t)
                    (slots (req_tuple_desc (_req (dw s)))))%list
    | inr _ => _col_ids (dw s') = _col_ids (dw s)
    end).
Proof. wp_go; cbn; split; try reflexivity; eexists; split; reflexivity. Qed.

Lemma close_body_col_ids env s :
  wp (close_body env) s (fun _ s' =>
    _col_ids (dw s') = _col_ids (dw s) /\ _tablet (dw s') = _tablet (dw s) /\
    _req (dw s') = _req (dw s) /\ _is_init (dw s') = _is_init (dw s)).
Proof. wp_go; cbn; auto. Qed.

Lemma write_body_col_ids env tuple s :
  wp (write_body env tuple) s (fun _ s' =>
    _col_ids (dw s') = _col_ids (dw s) /\ _tablet (dw s') = _tablet (dw s) /\
    _req (dw s') = _req (dw s) /\ _is_init (dw s') = _is_init (dw s)).
Proof. wp_go; cbn; auto. Qed.

(** X12: [_col_ids] is appended to by [init] and never cleared, and still it
    holds the mapping once: over any run of a freshly opened writer, however
    often [init] failed and was entered again, the vector is empty as long as
    the writer is not initialised, and from then on it is the mapping of the
    tablet's schema against the request's slots, without repetition. *)
Theorem col_ids_built_once env req vec ops :
  let s := snd (run_ops env ops (opened req [] vec)) in
  if _is_init (dw s)
  then exists t, _tablet (dw s) = Some t /\
         _col_ids (dw s) = build_col_ids (tablet_schema t) (slots (req_tuple_desc req))
  else _col_ids (dw s) = [].
Proof.
  pose (Inv := fun s : St =>
    _req (dw s) = req /\
    if _is_init (dw s)
    then exists t, _tablet (dw s) = Some t /\
           _col_ids (dw s) = build_col_ids (tablet_schema t) (slots (req_tuple_desc req))
    else _col_ids (dw s) = []).
  assert (Hbody : forall op s1, Inv s1 -> Inv (snd (step_body env op s1))).
  { intros op s1 (Hreq & Hinv). unfold Inv.
    destruct op as [tuple|]; cbn [step_body].
    - pose proof (write_body_col_ids env tuple s1) as F. unfold wp in F.
      destruct F as (F1 & F2 & F3 & F4). rewrite F1, F2, F3, F4. auto.
    - pose proof (close_body_col_ids env s1) as F. unfold wp in F.
      destruct F as (F1 & F2 & F3 & F4). rewrite F1, F2, F3, F4. auto. }
  assert (Hstep : forall op s0, Inv s0 -> Inv (snd (run (step env op) s0))).
  { intros op s0 Hinv.
    assert (E : snd (run (step env op) s0) = snd (step env op s0)).
    { unfold run. now destruct (step env op s0). }
    rewrite E. clear E.
    pose proof (init_col_ids env s0) as Hc. unfold wp in Hc.
    pose proof (init_spec env s0) as Hp. unfold wp, init_post in Hp.
    destruct (step_cases env op s0)
      as [(_ & ->)|[(Hi & s1 & Ei & ->)|(Hi & st & s1 & Ei & _ & ->)]].
    - now apply Hbody.
    - apply Hbody. rewrite Ei in Hc, Hp. cbn [fst snd] in Hc, Hp.
      destruct Hinv as (Hreq & Hinv). rewrite Hi in Hinv.
      destruct Hc as (Hr & t & Ht & Hids).
      destruct Hp as (_ & _ & _ & _ & Hready & _).
      unfold Inv. rewrite Hr, Hready. split; [exact Hreq|].
      exists t. split; [exact Ht|]. now rewrite Hids, Hinv, Hreq.
    - rewrite Ei in Hc, Hp. cbn [fst snd] in Hc, Hp.
      destruct Hinv as (Hreq & Hinv). rewrite Hi in Hinv.
      destruct Hc as (Hr & Hids). destruct Hp as (_ & _ & _ & _ & Hsame).
      unfold Inv. cbn [snd]. rewrite Hr, Hsame, Hi, Hids. auto. }
  assert (Hrun : forall ops s0, Inv s0 -> Inv (snd (run_ops env ops s0))).
  { clear ops. induction ops as [|op ops IH]; intros s0 Hinv; [exact Hinv|].
    rewrite run_ops_cons.
    destruct (fst (run (step env op) s0)); [apply IH|]; now apply Hstep. }
  intros s. apply (Hrun ops (opened req [] vec)). unfold Inv. cbn. auto.
Qed.

(** * The mapping in the first row buffer *)

(** What a successful [init] stores: the tablet, the mapping appended to
    [_col_ids], and a first row buffer made with that mapping. *)
Lemma init_first_buffer env s :
  wp (init env) s (fun r s' =>
    outcome_of r = Returned OLAP_SUCCESS ->
    exists t,
      _tablet (dw s') = Some t /\
      _col_ids (dw s') =
        (_col_ids (dw s)
           ++ build_col_ids (tablet_schema t)
                (slots (req_tuple_desc (_req (dw s)))))%list /\
      _mem_table (dw s') =
        Some (new_MemTable (Some (tablet_schema t)) (Some (tablet_schema t))
                (_col_ids (dw s')) (req_tuple_desc (_req (dw s))) (keys_type t))).
Proof.
  wp_go; intros Hok; try not_success.
  all: cbn; eexists; repeat split; reflexivity.
Qed.

(** C9: the column index mapping that [init] builds on a fresh writer routes
    the fields of a tuple into schema-column order.  Whenever the slots of the
    request have distinct names and every column of the tablet's schema is
    named by a slot, the record that the first row buffer assembles from a
    tuple holds, column by column in schema order, the value of the field
    that carries the column's name, whatever the order of the fields; with
    the duplicate key model that record is the row the buffer then holds.
    Columns [a; b; c] against fields [c; a; b] are one such case. *)
Theorem col_ids_route_fields env req vec t tuple :
  let sl := slots (req_tuple_desc req) in
  let r := run (init env) (opened req [] vec) in
  let record := map (fun column => field_value sl tuple (name column))
                  (columns (tablet_schema t)) in
  NoDup (map col_name sl) ->
  (forall column, In column (columns (tablet_schema t)) ->
                  In (name column) (map col_name sl)) ->
  List.length tuple = List.length sl ->
  fst r = Returned OLAP_SUCCESS ->
  _tablet (dw (snd r)) = Some t ->
  _col_ids (dw (snd r)) = build_col_ids (tablet_schema t) sl /\
  exists mt,
    _mem_table (dw (snd r)) = Some mt /\
    mt_col_ids mt = _col_ids (dw (snd r)) /\
    assemble_row (mt_col_ids mt) tuple = record /\
    (keys_type t = DUP_KEYS -> mt_rows (MemTable_insert env mt tuple) = [record]).
Proof.
  intros sl r record Hnd Hall Hlen Hok Ht.
  assert (Hroute : assemble_row (build_col_ids (tablet_schema t) sl) tuple = record).
  { unfold build_col_ids, record. revert Hall.
    generalize (columns (tablet_schema t)) as cols.
    induction cols as [|column cols IH]; intros Hall; [reflexivity|].
    cbn [flat_map map]. unfold assemble_row in *. rewrite map_app, IH.
    - f_equal.
      change (map (fun i => nth_error tuple i) (matching_slots (name column) sl 0))
        with (assemble_row (matching_slots (name column) sl 0) ([] ++ tuple)).
      rewrite (matching_slots_unique (name column) sl Hnd); auto.
      apply Hall. now left.
    - intros c Hc. apply Hall. now right. }
  revert Hok Ht. unfold r.
  apply (wp_run (init env) (opened req [] vec) (fun o s' =>
    o = Returned OLAP_SUCCESS -> _tablet (dw s') = Some t ->
    _col_ids (dw s') = build_col_ids (tablet_schema t) sl /\
    exists mt,
      _mem_table (dw s') = Some mt /\
      mt_col_ids mt = _col_ids (dw s') /\
      assemble_row (mt_col_ids mt) tuple = record /\
      (keys_type t = DUP_KEYS -> mt_rows (MemTable_insert env mt tuple) = [record]))).
  eapply wp_conseq; [apply init_first_buffer|].
  intros o s' H Hok Ht. destruct (H Hok) as (t' & Ht' & Hids & Hmt).
  rewrite Ht in Ht'. injection Ht' as <-. cbn in Hids. fold sl in Hids.
  split; [exact Hids|].
  eexists. split; [exact Hmt|]. cbn [mt_col_ids new_MemTable].
  split; [reflexivity|]. rewrite Hids. split; [exact Hroute|].
  intros Hdup. unfold MemTable_insert, new_MemTable.
  cbn [mt_rows mt_keys_type mt_col_ids]. rewrite Hdup. unfold assemble_row in *. cbn [app]. now rewrite Hroute.
Qed.

Lemma col_ids_route_fields_witness :
  (NoDup (map col_name (slots (req_tuple_desc (Scenario.request false)))) /\
   (forall column, In column (columns (tablet_schema (Scenario.tablet10 None))) ->
      In (name column) (map col_name (slots (req_tuple_desc (Scenario.request false))))) /\
   List.length [30; 10; 20]
   = List.length (slots (req_tuple_desc (Scenario.request false))) /\
   fst (run (init Scenario.env_ok) (opened (Scenario.request false) [] []))
   = Returned OLAP_SUCCESS /\
   _tablet (dw (snd (run (init Scenario.env_ok) (opened (Scenario.request false) [] []))))
   = Some (Scenario.tablet10 None)) /\
  _col_ids (dw (snd (run (init Scenario.env_ok) (opened (Scenario.request false) [] []))))
  = [1; 2; 0]%nat /\
  assemble_row
    (_col_ids (dw (snd (run (init Scenario.env_ok)
                          (opened (Scenario.request false) [] [])))))
    [30; 10; 20]
  = [Some 10; Some 20; Some 30].
Proof.
  assert (H1 : NoDup (map col_name (slots (req_tuple_desc (Scenario.request false))))).
  { cbn. repeat constructor; cbn; intuition discriminate. }
  assert (H2 : forall column,
             In column (columns (tablet_schema (Scenario.tablet10 None))) ->
             In (name column)
                (map col_name (slots (req_tuple_desc (Scenario.request false))))).
  { cbn. intros column [<-|[<-|[<-|[]]]]; cbn; auto. }
  assert (H3 : List.length [30; 10; 20]
               = List.length (slots (req_tuple_desc (Scenario.request false))))
    by reflexivity.
  assert (H4 : fst (run (init Scenario.env_ok) (opened (Scenario.request false) [] []))
               = Returned OLAP_SUCCESS) by reflexivity.
  assert (H5 : _tablet (dw (snd (run (init Scenario.env_ok)
                                   (opened (Scenario.request false) [] []))))
               = Some (Scenario.tablet10 None)) by reflexivity.
  split; [auto 10|].
  destruct (col_ids_route_fields Scenario.env_ok (Scenario.request false) []
              (Scenario.tablet10 None) [30; 10; 20] H1 H2 H3 H4 H5)
    as (Hids & mt & _ & Hmc & Hrec & _).
  split; [exact Hids|]. rewrite <- Hmc. exact Hrec.
Defined.

(** * Failing inputs, continued *)



(** * What a successful [close] reports *)

(** X16: in the build that is not for the tests, a [close] that returns
    OLAP_SUCCESS after any run of a freshly opened writer has appended exactly
    one record to the caller's collection: the tablet id and the schema hash
    of the primary tablet, nothing for a related tablet, which is null; and
    the success flag is set. *)
Theorem successful_close_reports_primary env req vec ops :
  let s := snd (run_ops env ops (opened req [] vec)) in
  let r := run (close env) s in
  BE_TEST env = false ->
  fst r = Returned OLAP_SUCCESS ->
  exists t,
    _tablet (dw (snd r)) = Some t /\
    _related_tablet (dw (snd r)) = None /\
    tablet_vec (snd r)
    = tablet_vec s ++ [{| info_tablet_id := tablet_id t;
                          info_schema_hash := schema_hash t |}] /\
    _delta_written_success (dw (snd r)) = true.
Proof.
  intros s r Hbuild. unfold r.
  assert (Hnull : _related_rowset (dw s) = None).
  { unfold s. rewrite run_ops_related_rowset. reflexivity. }
  apply (wp_run (close env) s (fun o s' =>
    o = Returned OLAP_SUCCESS ->
    exists t,
      _tablet (dw s') = Some t /\
      _related_tablet (dw s') = None /\
      tablet_vec s'
      = tablet_vec s ++ [{| info_tablet_id := tablet_id t;
                            info_schema_hash := schema_hash t |}] /\
      _delta_written_success (dw s') = true)).
  eapply wp_conseq; [apply close_success|].
  intros o s' H Hok. destruct (H Hok) as (t & Ht & Hneed & Hflag & Hvec).
  exists t. rewrite Hbuild in Hvec.
  destruct (_related_tablet (dw s')) as [related|].
  - exfalso. apply Hneed; [discriminate | exact Hnull].
  - auto.
Qed.

Lemma successful_close_reports_primary_witness :
  (BE_TEST Scenario.env_ok = false /\
   fst (run (close Scenario.env_ok)
          (snd (run_ops Scenario.env_ok [OpWrite [1; 2; 3]]
                  (opened (Scenario.request false) [] []))))
   = Returned OLAP_SUCCESS) /\
  exists t,
    _tablet (dw (snd (run (close Scenario.env_ok)
                        (snd (run_ops Scenario.env_ok [OpWrite [1; 2; 3]]
                                (opened (Scenario.request false) [] []))))))
    = Some t /\
    tablet_vec (snd (run (close Scenario.env_ok)
                       (snd (run_ops Scenario.env_ok [OpWrite [1; 2; 3]]
                               (opened (Scenario.request false) [] [])))))
    = [{| info_tablet_id := tablet_id t; info_schema_hash := schema_hash t |}].
Proof.
  assert (H1 : BE_TEST Scenario.env_ok = false) by reflexivity.
  assert (H2 : fst (run (close Scenario.env_ok)
                      (snd (run_ops Scenario.env_ok [OpWrite [1; 2; 3]]
                              (opened (Scenario.request false) [] []))))
               = Returned OLAP_SUCCESS) by reflexivity.
  split; [split; assumption|].
  destruct (successful_close_reports_primary Scenario.env_ok (Scenario.request false)
              [] [OpWrite [1; 2; 3]] H1 H2) as (t & Ht & _ & Hvec & _).
  exists t. split; [exact Ht | exact Hvec].
Defined.

(** * Where a run can crash, read off its trace *)

(** The body of [close] on a usable writer crashes at one of two places, and
    the trace tells which: right after [build] returned null, or right after
    the push lock of the related tablet was released, where the save follows
    [_related_rowset]. *)
Lemma close_body_crash_cause env s :
  usable (dw s) -> _is_init (dw s) = true ->
  wp (close_body env) s (fun r s' =>
    r = inr Segfault ->
    (exists pre, hist s' = (hist s ++ pre) ++ [EvBuild None] /\
                 _cur_rowset (dw s') = None) \/
    (exists pre related,
       hist s' = (hist s ++ pre)
                   ++ [EvPushUnlock (tablet_id related) (schema_hash related)] /\
       _related_tablet (dw s') = Some related /\
       _related_rowset (dw s') = None)).
Proof.
  intros Hu Hi. use_usable Hu.
  wp_go; cbn in *; try congruence; intros _.
  all: repeat match goal with
              | H : Some _ = Some _ |- _ => injection H as H; subst
              end.
  all: first
    [ left; eexists; split; [|reflexivity]
    | right; do 2 eexists; split; [|split; eassumption] ].
  all: match goal with
       | |- ?h ++ [?e] = _ => apply (f_equal (fun l => l ++ [e]))
       end.
  all: rewrite <- ?app_assoc; reflexivity.
Qed.

Lemma run_ops_usable env ops : forall s,
  usable (dw s) -> usable (dw (snd (run_ops env ops s))).
Proof.
  induction ops as [|op ops IH]; intros s Hu; [exact Hu|].
  rewrite run_ops_cons.
  pose proof (step_safe env op s Hu) as [Hu1 _].
  destruct (fst (run (step env op) s)); [apply IH|]; exact Hu1.
Qed.

(** X6: in any run of [write] and [close] calls on a fresh writer, the call
    that crashes is a [close], and what that call added to the trace tells
    why: either its last event is [build] returning null, and [_cur_rowset]
    is the null that the primary save followed; or its last event is the
    release of the related tablet's push lock, a related tablet is set and
    [_related_rowset] is the null that the second save followed.  A [write]
    never crashes. *)
Theorem crash_only_in_close env req vec ops op :
  let s := snd (run_ops env ops (opened req [] vec)) in
  let r := run (step env op) s in
  let evs := events_since (hist s) (hist (snd r)) in
  fst r = Crashed ->
  op = OpClose /\
  ((exists pre, evs = pre ++ [EvBuild None] /\
                _cur_rowset (dw (snd r)) = None) \/
   (exists pre related,
      evs = pre ++ [EvPushUnlock (tablet_id related) (schema_hash related)] /\
      _related_tablet (dw (snd r)) = Some related /\
      _related_rowset (dw (snd r)) = None)).
Proof.
  intros s r evs. subst evs r.
  assert (Hu : usable (dw s)).
  { apply run_ops_usable. intros Hi. discriminate Hi. }
  generalize dependent s. intros s Hu.
  assert (Hbody : forall s1 pre0, usable (dw s1) -> _is_init (dw s1) = true ->
            hist s1 = hist s ++ pre0 ->
            outcome_of (fst (step_body env op s1)) = Crashed ->
            op = OpClose /\
            ((exists pre,
                events_since (hist s) (hist (snd (step_body env op s1)))
                = pre ++ [EvBuild None] /\
                _cur_rowset (dw (snd (step_body env op s1))) = None) \/
             (exists pre related,
                events_since (hist s) (hist (snd (step_body env op s1)))
                = pre ++ [EvPushUnlock (tablet_id related) (schema_hash related)] /\
                _related_tablet (dw (snd (step_body env op s1))) = Some related /\
                _related_rowset (dw (snd (step_body env op s1))) = None))).
  { intros s1 pre0 Hu1 Hi1 Hh Hc. destruct op as [tuple|]; cbn [step_body] in *.
    - exfalso.
      pose proof (write_body_safe env tuple s1 Hu1 Hi1) as F. unfold wp in F.
      destruct F as (Hns & _). apply Hns.
      destruct (fst (write_body env tuple s1)) as [st|[st|]];
        [discriminate Hc | discriminate Hc | reflexivity].
    - split; [reflexivity|].
      pose proof (close_body_crash_cause env s1 Hu1 Hi1) as F. unfold wp in F.
      assert (Hseg : fst (close_body env s1) = inr Segfault).
      { destruct (fst (close_body env s1)) as [st|[st|]];
          [discriminate Hc | discriminate Hc | reflexivity]. }
      destruct (F Hseg) as [(pre & Hp & Hcur)|(pre & related & Hp & Hrt & Hrr)].
      + left. exists (pre0 ++ pre). split; [|exact Hcur].
        rewrite Hp, Hh, <- !app_assoc. apply events_since_app.
      + right. exists (pre0 ++ pre), related. split; [|split; assumption].
        rewrite Hp, Hh, <- !app_assoc. apply events_since_app. }
  assert (E : run (step env op) s
              = (outcome_of (fst (step env op s)), snd (step env op s))).
  { unfold run. now destruct (step env op s). }
  rewrite E. cbn [fst snd]. clear E.
  pose proof (init_spec env s) as Hinit. unfold wp, init_post in Hinit.
  destruct (step_cases env op s)
    as [(Hi & ->)|[(_ & s1 & Ei & ->)|(Hi & st & s1 & Ei & _ & ->)]].
  - apply (Hbody s []); [assumption|assumption|now rewrite app_nil_r].
  - rewrite Ei in Hinit. cbn [fst snd] in Hinit.
    destruct Hinit as ((evs & Hh & _) & _ & _ & _ & Hready).
    apply (Hbody s1 (EvInit :: evs));
      [apply ready_usable, Hready | apply Hready | exact Hh].
  - cbn [fst snd outcome_of]. discriminate.
Qed.

Lemma crash_only_in_close_witness :
  fst (run (step Scenario.env_dual OpClose)
         (snd (run_ops Scenario.env_dual [OpWrite [1; 2; 3]]
                 (opened (Scenario.request true) [] []))))
  = Crashed /\
  exists pre related,
    events_since
      (hist (snd (run_ops Scenario.env_dual [OpWrite [1; 2; 3]]
                    (opened (Scenario.request true) [] []))))
      (hist (snd (run (step Scenario.env_dual OpClose)
                    (snd (run_ops Scenario.env_dual [OpWrite [1; 2; 3]]
                            (opened (Scenario.request true) [] []))))))
    = pre ++ [EvPushUnlock (tablet_id related) (schema_hash related)] /\
    _related_tablet
      (dw (snd (run (step Scenario.env_dual OpClose)
                  (snd (run_ops Scenario.env_dual [OpWrite [1; 2; 3]]
                          (opened (Scenario.request true) [] []))))))
    = Some related.
Proof.
  assert (Hc : fst (run (step Scenario.env_dual OpClose)
                      (snd (run_ops Scenario.env_dual [OpWrite [1; 2; 3]]
                              (opened (Scenario.request true) [] []))))
               = Crashed) by reflexivity.
  split; [exact Hc|].
  destruct (crash_only_in_close Scenario.env_dual (Scenario.request true) []
              [OpWrite [1; 2; 3]] OpClose Hc)
    as (_ & [(pre & Hp & Hcur)|(pre & related & Hp & Hrt & _)]).
  - exfalso. vm_compute in Hcur. discriminate Hcur.
  - exists pre, related. split; assumption.
Defined.
